(** * QuestionableBudget: the domain store, the derived metrics and the
    persistence helpers of the single-file React application, embedded in Rocq.

    JavaScript numbers are IEEE-754 binary64 values: they are modelled by the
    primitive type [float], whose operations are the binary64 operations with
    rounding to nearest even.  JavaScript strings are sequences of UTF-16 code
    units.  React state updates [setData (d => ...)] are modelled by the pure
    function that the updater is. *)

From Stdlib Require Import ZArith NArith List Bool Lia Ascii String.
From Stdlib Require Import Sorting.Sorted Sorting.Permutation.
From Stdlib Require Import Floats.
Import ListNotations.

Set Warnings "-inexact-float,-register-all".

(* ================================================================= *)
(** ** JavaScript strings *)

(** A string is the list of its UTF-16 code units. *)
Definition jsstring := list N.

(** The code units of an ASCII literal. *)
Definition lit (s : string) : jsstring :=
map N_of_ascii (list_ascii_of_string s).

(** [a === b] on strings. *)
Fixpoint streq (a b : jsstring) : bool :=
match a, b with
| [], [] => true
| x :: a', y :: b' => N.eqb x y && streq a' b'
| _, _ => false
end.

(** ECMAScript WhiteSpace and LineTerminator code points, the ones that
    [String.prototype.trim] strips. *)
Definition is_whitespace (c : N) : bool :=
existsb (N.eqb c)
  [0x09; 0x0A; 0x0B; 0x0C; 0x0D; 0x20; 0xA0; 0x1680; 0x2028; 0x2029;
   0x202F; 0x205F; 0x3000; 0xFEFF]%N
|| (N.leb 0x2000 c && N.leb c 0x200A).

Fixpoint trimStart (s : jsstring) : jsstring :=
match s with
| [] => []
| c :: s' => if is_whitespace c then trimStart s' else s
end.

Definition trimEnd (s : jsstring) : jsstring := rev (trimStart (rev s)).

(** [s.trim()] *)
Definition trim (s : jsstring) : jsstring := trimEnd (trimStart s).

(** [!s] for a string [s]: the empty string is the only falsy string. *)
Definition falsy (s : jsstring) : bool :=
match s with [] => true | _ => false end.

(** [s.slice(b, e)] for indices [0 <= b <= e]. *)
Definition slice (s : jsstring) (b e : nat) : jsstring :=
firstn (e - b) (skipn b s).

(** [s.startsWith(p)] *)
Fixpoint startsWith (s p : jsstring) : bool :=
match p, s with
| [], _ => true
| x :: p', y :: s' => N.eqb x y && startsWith s' p'
| _ :: _, [] => false
end.

(* ================================================================= *)
(** ** Data model *)

Module Account.
Record t := mk { id : jsstring; name : jsstring; balance : float }.
End Account.

Module Category.
Record t := mk { id : jsstring; name : jsstring; budgeted : float }.
End Category.

(** The object the transaction forms pass to [addTransaction]. *)
Module TxForm.
Record t := mk
  { accountId : jsstring; categoryId : jsstring; amount : float;
    memo : jsstring }.
End TxForm.

Module Transaction.
Record t := mk
  { accountId : jsstring; categoryId : jsstring; amount : float;
    memo : jsstring; id : jsstring; date : jsstring }.
End Transaction.

(** The application state [data]. *)
Record snapshot := Snapshot
  { accounts : list Account.t;
    categories : list Category.t;
    transactions : list Transaction.t }.

(** The value [loadData] falls back to. *)
Definition empty_snapshot : snapshot := Snapshot [] [] [].

(* ================================================================= *)
(** ** Domain store *)

(** [genId()]: ['_' + Math.random().toString(36).slice(2, 10)].  The argument
    is the base-36 rendering [Math.random().toString(36)] of the number drawn. *)
Definition genId (rnd36 : jsstring) : jsstring :=
lit "_" ++ slice rnd36 2 10.

Section Store.

(** What a form field holds, and the platform's [parseFloat] on it. *)
Context {formvalue : Type}.
Variable parseFloat : formvalue -> float.

Definition addAccount (rnd36 name : jsstring) (balance : formvalue)
  (d : snapshot) : snapshot :=
if falsy (trim name) then d
else
  {| accounts :=
       accounts d ++ [Account.mk (genId rnd36) name (parseFloat balance)];
     categories := categories d;
     transactions := transactions d |}.

Definition addCategory (rnd36 name : jsstring) (d : snapshot) : snapshot :=
if falsy (trim name) then d
else
  {| accounts := accounts d;
     categories := categories d ++ [Category.mk (genId rnd36) name 0];
     transactions := transactions d |}.

Definition budgetCategory (id : jsstring) (delta : formvalue)
  (d : snapshot) : snapshot :=
{| accounts := accounts d;
   categories :=
     map (fun c =>
            if streq (Category.id c) id
            then Category.mk (Category.id c) (Category.name c)
                   (Category.budgeted c + parseFloat delta)
            else c)
         (categories d);
   transactions := transactions d |}.

End Store.

(** [addTransaction(tx)]; [now] is [new Date().toISOString()]. *)
Definition addTransaction (rnd36 now : jsstring) (tx : TxForm.t)
  (d : snapshot) : snapshot :=
{| accounts :=
     map (fun a =>
            if streq (Account.id a) (TxForm.accountId tx)
            then Account.mk (Account.id a) (Account.name a)
                   (Account.balance a + TxForm.amount tx)
            else a)
         (accounts d);
   categories := categories d;
   transactions :=
     transactions d ++
     [Transaction.mk (TxForm.accountId tx) (TxForm.categoryId tx)
        (TxForm.amount tx) (TxForm.memo tx) (genId rnd36) now] |}.

(* ================================================================= *)
(** ** Data selectors *)

Definition spendingInCategory (data : snapshot) (catId : jsstring) : float :=
fold_left (fun s t => s + Transaction.amount t)%float
  (filter (fun tx => streq (Transaction.categoryId tx) catId)
     (transactions data))
  0%float.

Definition availableInCategory (data : snapshot) (cat : Category.t) : float :=
(Category.budgeted cat + spendingInCategory data (Category.id cat))%float.

(* ================================================================= *)
(** ** Dashboard metrics *)

(** The total both chart series compute for a category:
    [data.transactions.filter(tx => tx.categoryId === cat.id && tx.amount < 0)
       .reduce((sum, tx) => sum + Math.abs(tx.amount), 0)]. *)
Definition spending (data : snapshot) (catId : jsstring) : float :=
fold_left (fun sum tx => sum + abs (Transaction.amount tx))%float
  (filter (fun tx => streq (Transaction.categoryId tx) catId
                     && (Transaction.amount tx <? 0)%float)
     (transactions data))
  0%float.

(** [thisMonthSpending] and [lastMonthSpending]; [month] is the seven
    character prefix [YYYY-MM] of an ISO date. *)
Definition monthSpending (data : snapshot) (month : jsstring) : float :=
fold_left (fun sum tx => sum + abs (Transaction.amount tx))%float
  (filter (fun tx => startsWith (Transaction.date tx) month
                     && (Transaction.amount tx <? 0)%float)
     (transactions data))
  0%float.

Definition spendingChange (thisMonthSpending lastMonthSpending : float)
  : float :=
if (0 <? lastMonthSpending)%float
then ((thisMonthSpending - lastMonthSpending) / lastMonthSpending * 100)%float
else 0%float.

(** [Array.prototype.sort(compareFn)].  ECMAScript fixes the result for a
    consistent comparator: the stable rearrangement in which [a] precedes [b]
    whenever [compareFn(a, b) < 0]; a [NaN] returned by the comparator counts
    as [0].  It is computed here by a stable insertion sort. *)
Section ArraySort.
Context {A : Type}.
Variable compareFn : A -> A -> float.

Fixpoint sort_insert (x : A) (l : list A) : list A :=
match l with
| [] => [x]
| y :: l' =>
    if (0 <? compareFn x y)%float then y :: sort_insert x l' else x :: l
end.

Definition sort (l : list A) : list A := fold_right sort_insert [] l.
End ArraySort.

Module ChartItem.
Record t := mk { label : jsstring; value : float }.
End ChartItem.

Definition spendingByCategory (data : snapshot) : list ChartItem.t :=
sort (fun a b => ChartItem.value b - ChartItem.value a)%float
  (filter (fun item => (0 <? ChartItem.value item)%float)
     (map (fun cat =>
             ChartItem.mk (Category.name cat)
               (spending data (Category.id cat)))
        (categories data))).

Inductive status := good | over.

Module BudgetEntry.
Record t := mk
  { id : jsstring; name : jsstring; budgeted : float;
    spending : float; available : float; status : status }.
End BudgetEntry.

Definition budgetStatus (data : snapshot) : list BudgetEntry.t :=
map (fun cat =>
       let spending := spending data (Category.id cat) in
       let available := (Category.budgeted cat + spending)%float in
       BudgetEntry.mk (Category.id cat) (Category.name cat)
         (Category.budgeted cat) spending available
         (if (0 <=? available)%float then good else over))
    (categories data).

(* ================================================================= *)
(** ** Sequences of store operations *)

Inductive action {formvalue : Type} :=
| AddAccount (rnd36 name : jsstring) (balance : formvalue)
| AddCategory (rnd36 name : jsstring)
| BudgetCategory (id : jsstring) (delta : formvalue)
| AddTransaction (rnd36 now : jsstring) (tx : TxForm.t).
Arguments action : clear implicits.

Section Run.
Context {formvalue : Type}.
Variable parseFloat : formvalue -> float.

Definition step (d : snapshot) (a : action formvalue) : snapshot :=
match a with
| AddAccount rnd36 name balance => addAccount parseFloat rnd36 name balance d
| AddCategory rnd36 name => addCategory rnd36 name d
| BudgetCategory id delta => budgetCategory parseFloat id delta d
| AddTransaction rnd36 now tx => addTransaction rnd36 now tx d
end.

Definition run (acts : list (action formvalue)) (d : snapshot) : snapshot :=
fold_left step acts d.
End Run.

(** [parseFloat] on an argument that already is a number: the number is
    rendered by [ToString] and read back, which returns it unchanged except
    that [-0] is rendered ["0"]. *)
Definition parseFloat_number (x : float) : float :=
if is_zero x then 0%float else x.

(* ================================================================= *)
(** ** JSON documents *)

(** The JavaScript values a JSON document denotes, and the ones the
    application state is made of.  An object is the list of its own
    properties in creation order. *)
Inductive jsval :=
| JNull
| JBool (b : bool)
| JNum (x : float)
| JStr (s : jsstring)
| JArr (items : list jsval)
| JObj (props : list (jsstring * jsval)).

(** JSON text, after lexing.  A number token carries the binary64 value its
    decimal literal denotes, a string token the contents it unescapes to:
    ECMAScript prints a finite number by the shortest literal that reads back
    as the same number, and escapes strings reversibly. *)
Inductive token :=
| TLBrace | TRBrace | TLBracket | TRBracket | TColon | TComma
| TNull | TTrue | TFalse
| TNumber (x : float)
| TString (s : jsstring).

Definition text := list token.

(** [JSON.stringify(value)].  A number that is not finite is written [null];
    negative zero is written [0].  The members of an object are written in
    the order of the list; this is the order of JavaScript for the documents
    of the application, whose keys are names, and not for keys that read as
    array indices, which JavaScript enumerates first. *)
Fixpoint JSON_stringify (v : jsval) : text :=
match v with
| JNull => [TNull]
| JBool true => [TTrue]
| JBool false => [TFalse]
| JNum x =>
    if is_finite x then [TNumber (if is_zero x then 0%float else x)]
    else [TNull]
| JStr s => [TString s]
| JArr items =>
    TLBracket ::
    (fix elements (l : list jsval) : text :=
       match l with
       | [] => []
       | x :: l' =>
           match l' with
           | [] => JSON_stringify x
           | _ :: _ => JSON_stringify x ++ TComma :: elements l'
           end
       end) items
    ++ [TRBracket]
| JObj props =>
    TLBrace ::
    (fix members (l : list (jsstring * jsval)) : text :=
       match l with
       | [] => []
       | (k, x) :: l' =>
           match l' with
           | [] => TString k :: TColon :: JSON_stringify x
           | _ :: _ =>
               (TString k :: TColon :: JSON_stringify x) ++ TComma :: members l'
           end
       end) props
    ++ [TRBrace]
end.

(** Defining a property while an object is read: a repeated key keeps its
    place and takes the later value. *)
Fixpoint obj_put (o : list (jsstring * jsval)) (k : jsstring) (v : jsval)
  : list (jsstring * jsval) :=
match o with
| [] => [(k, v)]
| (k', v') :: o' =>
    if streq k' k then (k', v) :: o' else (k', v') :: obj_put o' k v
end.

Definition obj_of_members (ms : list (jsstring * jsval))
  : list (jsstring * jsval) :=
fold_left (fun o m => obj_put o (fst m) (snd m)) ms [].

(** The JSON grammar over tokens, by recursive descent; [fuel] bounds the
    depth of the descent. *)
Fixpoint parse_value (fuel : nat) (ts : text) : option (jsval * text) :=
match fuel with
| O => None
| S fuel' =>
    match ts with
    | TNull :: r => Some (JNull, r)
    | TTrue :: r => Some (JBool true, r)
    | TFalse :: r => Some (JBool false, r)
    | TNumber x :: r => Some (JNum x, r)
    | TString s :: r => Some (JStr s, r)
    | TLBracket :: TRBracket :: r => Some (JArr [], r)
    | TLBracket :: r =>
        match parse_elements fuel' r with
        | Some (vs, r') => Some (JArr vs, r')
        | None => None
        end
    | TLBrace :: TRBrace :: r => Some (JObj [], r)
    | TLBrace :: r =>
        match parse_members fuel' r with
        | Some (ms, r') => Some (JObj (obj_of_members ms), r')
        | None => None
        end
    | _ => None
    end
end
with parse_elements (fuel : nat) (ts : text) : option (list jsval * text) :=
match fuel with
| O => None
| S fuel' =>
    match parse_value fuel' ts with
    | Some (v, TComma :: r) =>
        match parse_elements fuel' r with
        | Some (vs, r') => Some (v :: vs, r')
        | None => None
        end
    | Some (v, TRBracket :: r) => Some ([v], r)
    | _ => None
    end
end
with parse_members (fuel : nat) (ts : text)
  : option (list (jsstring * jsval) * text) :=
match fuel with
| O => None
| S fuel' =>
    match ts with
    | TString k :: TColon :: r =>
        match parse_value fuel' r with
        | Some (v, TComma :: r') =>
            match parse_members fuel' r' with
            | Some (ms, r'') => Some ((k, v) :: ms, r'')
            | None => None
            end
        | Some (v, TRBrace :: r') => Some ([(k, v)], r')
        | _ => None
        end
    | _ => None
    end
end.

(** [JSON.parse(text)]; [None] stands for the [SyntaxError] it throws.  The
    descent is never deeper than twice the number of tokens. *)
Definition JSON_parse (ts : text) : option jsval :=
match parse_value (2 * List.length ts + 2) ts with
| Some (v, []) => Some v
| _ => None
end.

(** The application state as a JavaScript value. *)
Definition js_of_account (a : Account.t) : jsval :=
JObj [(lit "id", JStr (Account.id a)); (lit "name", JStr (Account.name a));
      (lit "balance", JNum (Account.balance a))].

Definition js_of_category (c : Category.t) : jsval :=
JObj [(lit "id", JStr (Category.id c)); (lit "name", JStr (Category.name c));
      (lit "budgeted", JNum (Category.budgeted c))].

Definition js_of_transaction (t : Transaction.t) : jsval :=
JObj [(lit "accountId", JStr (Transaction.accountId t));
      (lit "categoryId", JStr (Transaction.categoryId t));
      (lit "amount", JNum (Transaction.amount t));
      (lit "memo", JStr (Transaction.memo t));
      (lit "id", JStr (Transaction.id t));
      (lit "date", JStr (Transaction.date t))].

Definition js_of_snapshot (d : snapshot) : jsval :=
JObj [(lit "accounts", JArr (map js_of_account (accounts d)));
      (lit "categories", JArr (map js_of_category (categories d)));
      (lit "transactions", JArr (map js_of_transaction (transactions d)))].

(* ================================================================= *)
(** ** Persistence *)

(** [localStorage]: the stored items, key and value. *)
Definition storage := list (jsstring * text).

Fixpoint getItem (ls : storage) (key : jsstring) : option text :=
match ls with
| [] => None
| (k, v) :: ls' => if streq k key then Some v else getItem ls' key
end.

Definition setItem (ls : storage) (key : jsstring) (value : text) : storage :=
(key, value) :: filter (fun kv => negb (streq (fst kv) key)) ls.

Definition LS_KEY : jsstring := lit "budget_app_data_v1".

(** [if (raw)]: a missing item and the empty text are both falsy. *)
Definition loadData (ls : storage) : jsval :=
match getItem ls LS_KEY with
| Some ((_ :: _) as raw) =>
    match JSON_parse raw with
    | Some v => v
    | None => js_of_snapshot empty_snapshot
    end
| _ => js_of_snapshot empty_snapshot
end.

Definition saveData (data : jsval) (ls : storage) : storage :=
setItem ls LS_KEY (JSON_stringify data).

(** What [FileReader.readAsText] ends with: [onload] with the text, or
    [onerror]. *)
Inductive file_read := FileText (result : text) | FileError.

(** How the promise of [loadDataFromFile] settles. *)
Inductive settled := Resolved (data : jsval) | Rejected (message : jsstring).

Definition loadDataFromFile (file : file_read) : settled :=
match file with
| FileText result =>
    match JSON_parse result with
    | Some data => Resolved data
    | None => Rejected (lit "Invalid JSON file")
    end
| FileError => Rejected (lit "Error reading file")
end.

(** The part of the state of [App] that the upload handler touches, and the
    messages shown by [alert]. *)
Record app := App
  { data : jsval; isLoading : bool; alerts : list jsstring }.

(** [handleFileUpload(event)]; [file] is [event.target.files[0]]. *)
Definition handleFileUpload (file : option file_read) (st : app) : app :=
match file with
| None => st
| Some f =>
    let st1 := App (data st) true (alerts st) in
    let st2 :=
      match loadDataFromFile f with
      | Resolved newData => App newData (isLoading st1) (alerts st1)
      | Rejected message =>
          App (data st1) (isLoading st1)
            (alerts st1 ++ [lit "Error loading file: " ++ message])
      end in
    App (data st2) false (alerts st2)
end.

(* ================================================================= *)
(** ** Reference definitions, in the words of the specification *)

(** The signed sum of the amounts of the transactions of a category, taken
    in one pass over the log. *)
Fixpoint signed_sum_from (acc : float) (catId : jsstring)
  (txs : list Transaction.t) : float :=
match txs with
| [] => acc
| t :: txs' =>
    if streq (Transaction.categoryId t) catId
    then signed_sum_from (acc + Transaction.amount t) catId txs'
    else signed_sum_from acc catId txs'
end.

Definition category_signed_sum (data : snapshot) (catId : jsstring) : float :=
signed_sum_from 0 catId (transactions data).

(** The total of the absolute values of the negative amounts of the
    transactions of a category, taken in one pass over the log. *)
Fixpoint abs_spend_from (acc : float) (catId : jsstring)
  (txs : list Transaction.t) : float :=
match txs with
| [] => acc
| t :: txs' =>
    if streq (Transaction.categoryId t) catId
       && (Transaction.amount t <? 0)%float
    then abs_spend_from (acc + abs (Transaction.amount t)) catId txs'
    else abs_spend_from acc catId txs'
end.

Definition category_abs_spend (data : snapshot) (catId : jsstring) : float :=
abs_spend_from 0 catId (transactions data).

(** A division that refuses a zero divisor, and [spendingChange] computed
    with it. *)
Definition checked_div (x y : float) : option float :=
if is_zero y then None else Some (x / y)%float.

Definition spendingChange_checked (thisMonthSpending lastMonthSpending : float)
  : option float :=
if (0 <? lastMonthSpending)%float
then match checked_div (thisMonthSpending - lastMonthSpending)
             lastMonthSpending with
     | Some q => Some (q * 100)%float
     | None => None
     end
else Some 0%float.

(** The order of the chart: no later item has a larger value; the comparator
    and the filter of [spendingByCategory]. *)
Definition by_value_desc (a b : ChartItem.t) : Prop :=
(ChartItem.value b <=? ChartItem.value a)%float = true.

Definition value_desc (a b : ChartItem.t) : float :=
(ChartItem.value b - ChartItem.value a)%float.

Definition has_spend (item : ChartItem.t) : bool :=
(0 <? ChartItem.value item)%float.

(** Every id of a collection occurs once in it. *)
Definition unique_ids (d : snapshot) : Prop :=
NoDup (map Account.id (accounts d))
/\ NoDup (map Category.id (categories d))
/\ NoDup (map Transaction.id (transactions d)).

(* ================================================================= *)
(** ** Values that JSON text carries exactly *)

(** A number is written and read back unchanged when it is finite and is not
    negative zero. *)
Definition num_exact (x : float) : bool :=
is_finite x && PrimFloat.Leibniz.eqb (if is_zero x then 0%float else x) x.

Fixpoint keys_distinct (ks : list jsstring) : bool :=
match ks with
| [] => true
| k :: ks' => negb (existsb (streq k) ks') && keys_distinct ks'
end.

Fixpoint json_exact (v : jsval) : bool :=
match v with
| JNull | JBool _ | JStr _ => true
| JNum x => num_exact x
| JArr items => forallb json_exact items
| JObj props =>
    keys_distinct (map fst props)
    && forallb (fun p => json_exact (snd p)) props
end.

(** A snapshot all of whose balances, budgets and amounts are finite and not
    negative zero. *)
Definition snapshot_exact (d : snapshot) : bool :=
forallb (fun a => num_exact (Account.balance a)) (accounts d)
&& forallb (fun c => num_exact (Category.budgeted c)) (categories d)
&& forallb (fun t => num_exact (Transaction.amount t)) (transactions d).

(** The tokens between the brackets of an array, and between the braces of
    an object. *)
Fixpoint elements_text (l : list jsval) : text :=
match l with
| [] => []
| x :: l' =>
    match l' with
    | [] => JSON_stringify x
    | _ :: _ => JSON_stringify x ++ TComma :: elements_text l'
    end
end.

Fixpoint members_text (l : list (jsstring * jsval)) : text :=
match l with
| [] => []
| (k, x) :: l' =>
    match l' with
    | [] => TString k :: TColon :: JSON_stringify x
    | _ :: _ =>
        (TString k :: TColon :: JSON_stringify x) ++ TComma :: members_text l'
    end
end.

(** The tokens a value can start with. *)
Definition opens (t : token) : bool :=
match t with
| TRBrace | TRBracket | TColon | TComma => false
| _ => true
end.

(* ================================================================= *)
(** ** Classes of binary64 values *)

(** A value of sign [s] that is not [NaN]. *)
Definition sf_signed (s : bool) (x : spec_float) : Prop :=
x = S754_zero s \/ x = S754_infinity s \/ exists m e, x = S754_finite s m e.

(** A value of sign [s] that is neither [NaN] nor a zero. *)
Definition sf_nonzero (s : bool) (x : spec_float) : Prop :=
x = S754_infinity s \/ exists m e, x = S754_finite s m e.

(** [0 < x] *)
Definition sf_positive (x : spec_float) : bool :=
match x with
| S754_infinity false | S754_finite false _ _ => true
| _ => false
end.

(** [0 <= x] *)
Definition sf_nonneg (x : spec_float) : bool :=
match x with
| S754_zero _ | S754_infinity false | S754_finite false _ _ => true
| _ => false
end.

(* ================================================================= *)
(** ** Sequences of operations: what they log, open and require *)

(** The transaction [addTransaction] appends. *)
Definition logged_transaction (rnd36 now : jsstring) (tx : TxForm.t)
  : Transaction.t :=
Transaction.mk (TxForm.accountId tx) (TxForm.categoryId tx)
  (TxForm.amount tx) (TxForm.memo tx) (genId rnd36) now.

(** The balance an account reaches when the amounts of the transactions that
    name it are added to [opening] one after the other, in log order. *)
Definition replayed_balance (opening : float) (id : jsstring)
  (txs : list Transaction.t) : float :=
fold_left (fun s t => s + Transaction.amount t)%float
  (filter (fun t => streq (Transaction.accountId t) id) txs)
  opening.

Section Sequences.
Context {formvalue : Type}.
Variable parseFloat : formvalue -> float.

(** The transactions a sequence of operations appends, in order. *)
Definition logged (acts : list (action formvalue)) : list Transaction.t :=
flat_map (fun a =>
            match a with
            | AddTransaction rnd36 now tx => [logged_transaction rnd36 now tx]
            | _ => []
            end) acts.

(** The opening balances of the accounts a sequence creates, in order. *)
Definition opened (acts : list (action formvalue)) : list float :=
flat_map (fun a =>
            match a with
            | AddAccount _ name balance =>
                if forallb is_whitespace name then []
                else [parseFloat balance]
            | _ => []
            end) acts.

(** The opening balance of every account after the sequence: the balance an
    account of the initial snapshot had there, and the balance a created
    account was given. *)
Definition opening_balances (d : snapshot) (acts : list (action formvalue))
  : list float :=
map Account.balance (accounts d) ++ opened acts.

(** An operation is valid when the id it draws for a new account is not the
    id of an account there is, and when the transaction it records names an
    account there is. *)
Definition valid_action (d : snapshot) (a : action formvalue) : Prop :=
match a with
| AddAccount rnd36 name _ =>
    forallb is_whitespace name = false ->
    ~ In (genId rnd36) (map Account.id (accounts d))
| AddTransaction _ _ tx =>
    In (TxForm.accountId tx) (map Account.id (accounts d))
| _ => True
end.

Fixpoint valid_run (d : snapshot) (acts : list (action formvalue)) : Prop :=
match acts with
| [] => True
| a :: acts' => valid_action d a /\ valid_run (step parseFloat d a) acts'
end.

(** An operation draws a fresh id when [genId()] returns an id that its
    collection does not hold yet. *)
Definition fresh_action (d : snapshot) (a : action formvalue) : Prop :=
match a with
| AddAccount rnd36 name _ =>
    forallb is_whitespace name = false ->
    ~ In (genId rnd36) (map Account.id (accounts d))
| AddCategory rnd36 name =>
    forallb is_whitespace name = false ->
    ~ In (genId rnd36) (map Category.id (categories d))
| AddTransaction rnd36 _ _ =>
    ~ In (genId rnd36) (map Transaction.id (transactions d))
| BudgetCategory _ _ => True
end.

Fixpoint fresh_run (d : snapshot) (acts : list (action formvalue)) : Prop :=
match acts with
| [] => True
| a :: acts' => fresh_action d a /\ fresh_run (step parseFloat d a) acts'
end.

(** Every account holds its opening balance with the logged amounts that name
    it added in log order. *)
Definition reconciled (d : snapshot) (acts : list (action formvalue)) : Prop :=
Forall2 (fun o a =>
           Account.balance a = replayed_balance o (Account.id a) (logged acts))
  (opening_balances d acts) (accounts (run parseFloat acts d)).

End Sequences.

(* ================================================================= *)
(** ** More of the dashboard *)

(** [totalBalance] and [totalActivity] of [Dashboard]. *)
Definition totalBalance (data : snapshot) : float :=
fold_left (fun s a => s + Account.balance a)%float (accounts data) 0%float.

Definition totalActivity (data : snapshot) : float :=
fold_left (fun s t => s + Transaction.amount t)%float (transactions data)
  0%float.

(** [spendingChange] as [Dashboard] computes it.  The two arguments are what
    the component reads from the clock: [thisMonth], the [YYYY-MM] prefix of
    the ISO time stamp of now, and [lastMonth], the prefix of the time stamp
    of now minus thirty days.  [lastMonth] is not always the calendar month
    before [thisMonth]: on the 31st of a month the two are equal. *)
Definition dashboardSpendingChange (data : snapshot)
  (thisMonth lastMonth : jsstring) : float :=
spendingChange (monthSpending data thisMonth) (monthSpending data lastMonth).

(** [l.slice(-n)] for a positive [n]. *)
Definition slice_last {A} (n : nat) (l : list A) : list A :=
skipn (List.length l - n) l.

(** The "Recent Activity" list: [data.transactions.slice(-5).reverse()]. *)
Definition recentActivity (data : snapshot) : list Transaction.t :=
rev (slice_last 5 (transactions data)).

(** What [Dashboard] hands to [PieChart] and to [BarChart]:
    [spendingByCategory.slice(0, 6)] and [.slice(0, 5)]. *)
Definition pieChartData (data : snapshot) : list ChartItem.t :=
firstn 6 (spendingByCategory data).

Definition barChartData (data : snapshot) : list ChartItem.t :=
firstn 5 (spendingByCategory data).

(* ================================================================= *)
(** ** The transaction form *)

(** The state of the form of [Transactions]; every field is the text of an
    input. *)
Module TransactionForm.
Record t := mk
  { accountId : jsstring; categoryId : jsstring; amount : jsstring;
    memo : jsstring }.
End TransactionForm.

(** [data.accounts[0]?.id || ''] and [data.categories[0]?.id || '']. *)
Definition firstAccountId (data : snapshot) : jsstring :=
match accounts data with
| [] => []
| a :: _ => if falsy (Account.id a) then [] else Account.id a
end.

Definition firstCategoryId (data : snapshot) : jsstring :=
match categories data with
| [] => []
| c :: _ => if falsy (Category.id c) then [] else Category.id c
end.

(** The form as [useState] sets it up. *)
Definition initialForm (data : snapshot) : TransactionForm.t :=
TransactionForm.mk (firstAccountId data) (firstCategoryId data) [] [].

Section Forms.
(** [parseFloat] on the text of the amount field. *)
Variable parseFloat : jsstring -> float.

(** [handleSubmit] of [Transactions], with [onAdd = addTransaction]: the new
    form state and the new application data. *)
Definition handleSubmit (rnd36 now : jsstring) (form : TransactionForm.t)
  (data : snapshot) : TransactionForm.t * snapshot :=
if falsy (TransactionForm.accountId form)
   || falsy (TransactionForm.categoryId form)
   || falsy (TransactionForm.amount form)
then (form, data)
else
  (TransactionForm.mk (TransactionForm.accountId form)
     (TransactionForm.categoryId form) [] [],
   addTransaction rnd36 now
     (TxForm.mk (TransactionForm.accountId form)
        (TransactionForm.categoryId form)
        (parseFloat (TransactionForm.amount form))
        (TransactionForm.memo form))
     data).

(** [handleSubmit] of [QuickAddModal]: the new form state, the new
    application data and whether the modal stays open. *)
Definition quickAddSubmit (rnd36 now : jsstring) (form : TransactionForm.t)
  (data : snapshot) : TransactionForm.t * snapshot * bool :=
if falsy (TransactionForm.accountId form)
   || falsy (TransactionForm.categoryId form)
   || falsy (TransactionForm.amount form)
then (form, data, true)
else
  (initialForm data,
   addTransaction rnd36 now
     (TxForm.mk (TransactionForm.accountId form)
        (TransactionForm.categoryId form)
        (parseFloat (TransactionForm.amount form))
        (TransactionForm.memo form))
     data,
   false).
End Forms.

(* ================================================================= *)
(** ** Export *)

(** [s.split('T')[0]]: the part of [s] before its first ['T']. *)
Fixpoint before_T (s : jsstring) : jsstring :=
match s with
| [] => []
| c :: s' => if N.eqb c 84 then [] else c :: before_T s'
end.

(** The file [exportData] offers: its name, and its text
    [JSON.stringify(data, null, 2)], whose indentation is white space between
    the tokens; [now] is [new Date().toISOString()]. *)
Record download := Download { filename : jsstring; content : text }.

Definition exportData (now : jsstring) (data : jsval) : download :=
{| filename := lit "budget-data-" ++ before_T now ++ lit ".json";
   content := JSON_stringify data |}.

(* ================================================================= *)
(** ** Chart colours *)

(** [colors[index % colors.length]]; [None] stands for [undefined]. *)
Definition sliceColor (colors : list jsstring) (index : nat)
  : option jsstring :=
nth_error colors (index mod List.length colors).

(** The default palette of [PieChart]. *)
Definition pieColors : list jsstring :=
[lit "#3b82f6"; lit "#10b981"; lit "#f59e0b"; lit "#ef4444"; lit "#8b5cf6";
 lit "#06b6d4"; lit "#84cc16"; lit "#f97316"].

(* ################################################################# *)
(** * Properties *)

(* ================================================================= *)
(** ** Strings *)

Lemma streq_refl (a : jsstring) : streq a a = true.
Proof.
induction a as [|x a IH]; simpl; [reflexivity|].
now rewrite N.eqb_refl.
Qed.

Lemma streq_eq (a b : jsstring) : streq a b = true <-> a = b.
Proof.
split.
- revert b; induction a as [|x a IH]; intros [|y b]; simpl; try discriminate.
  + reflexivity.
  + intros H. apply andb_true_iff in H as [Hx Hr].
    apply N.eqb_eq in Hx. f_equal; auto.
- intros ->. apply streq_refl.
Qed.

Lemma streq_neq (a b : jsstring) : streq a b = false <-> a <> b.
Proof.
split.
- intros H E. apply streq_eq in E. congruence.
- intros H. destruct (streq a b) eqn:E; [|reflexivity].
  apply streq_eq in E. contradiction.
Qed.

Lemma trimStart_blank (s : jsstring) :
  trimStart s = [] <-> forallb is_whitespace s = true.
Proof.
induction s as [|c s IH]; simpl; [tauto|].
destruct (is_whitespace c); simpl; [exact IH|].
split; discriminate.
Qed.

Lemma trimStart_head (s : jsstring) c t :
  trimStart s = c :: t -> is_whitespace c = false.
Proof.
induction s as [|x s IH]; simpl; [discriminate|].
destruct (is_whitespace x) eqn:E; [exact IH|].
intros H. injection H as -> _. exact E.
Qed.

Lemma forallb_rev {A} (f : A -> bool) (l : list A) :
  forallb f (rev l) = forallb f l.
Proof.
induction l as [|x l IH]; simpl; [reflexivity|].
rewrite forallb_app, IH. simpl. rewrite andb_true_r. apply andb_comm.
Qed.

(** [!name.trim()] holds exactly when [name] is empty or whitespace only. *)
Lemma falsy_trim (s : jsstring) :
  falsy (trim s) = forallb is_whitespace s.
Proof.
destruct (forallb is_whitespace s) eqn:E.
- apply trimStart_blank in E. unfold trim, trimEnd. now rewrite E.
- unfold trim, trimEnd.
  destruct (rev (trimStart (rev (trimStart s)))) eqn:R; [|reflexivity].
  exfalso.
  apply (f_equal (@rev N)) in R. rewrite rev_involutive in R. simpl in R.
  apply trimStart_blank in R. rewrite forallb_rev in R.
  destruct (trimStart s) as [|c t] eqn:T.
  + apply trimStart_blank in T. congruence.
  + apply trimStart_head in T. simpl in R. rewrite T in R. discriminate.
Qed.

(* ================================================================= *)
(** ** The store operations *)

Lemma map_unmatched {A} (f : A -> A) (p : A -> bool) (l : list A) :
  (forall a, In a l -> p a = false) ->
  map (fun a => if p a then f a else a) l = l.
Proof.
intros H. induction l as [|a l IH]; simpl; [reflexivity|].
rewrite (H a (or_introl eq_refl)). f_equal.
apply IH. intros b Hb. apply H. now right.
Qed.

(** C2.  When the [accountId] of the form matches no account, the transaction
    is appended to the log all the same, and the accounts, so every balance,
    and the categories are as they were. *)
Theorem addTransaction_unknown_account :
  forall (rnd36 now : jsstring) (tx : TxForm.t) (d : snapshot),
    (forall a, In a (accounts d) ->
               streq (Account.id a) (TxForm.accountId tx) = false) ->
    transactions (addTransaction rnd36 now tx d) =
      transactions d ++
      [Transaction.mk (TxForm.accountId tx) (TxForm.categoryId tx)
         (TxForm.amount tx) (TxForm.memo tx) (genId rnd36) now]
    /\ accounts (addTransaction rnd36 now tx d) = accounts d
    /\ map Account.balance (accounts (addTransaction rnd36 now tx d)) =
       map Account.balance (accounts d)
    /\ categories (addTransaction rnd36 now tx d) = categories d.
Proof.
intros rnd36 now tx d H. unfold addTransaction; simpl.
rewrite (map_unmatched _ _ _ H). auto.
Qed.

Lemma addTransaction_unknown_account_witness :
  let d := Snapshot [Account.mk (lit "_a1") (lit "Checking") 100] [] [] in
  let tx := TxForm.mk (lit "_zz") (lit "_c1") (-20) (lit "milk") in
  transactions (addTransaction (lit "0.k3x9") (lit "2024-05-01T10:00:00.000Z") tx d) =
    [Transaction.mk (lit "_zz") (lit "_c1") (-20) (lit "milk")
       (genId (lit "0.k3x9")) (lit "2024-05-01T10:00:00.000Z")]
  /\ accounts (addTransaction (lit "0.k3x9") (lit "2024-05-01T10:00:00.000Z") tx d) =
     accounts d.
Proof.
intros d tx.
destruct (addTransaction_unknown_account (lit "0.k3x9")
            (lit "2024-05-01T10:00:00.000Z") tx d) as (Ht & Ha & _).
- intros a [<-|[]]. reflexivity.
- split; [exact Ht | exact Ha].
Defined.

Section StoreFacts.
Context {formvalue : Type}.
Variable parseFloat : formvalue -> float.

(** C3.  [addAccount] with a name that is empty or whitespace only returns
    the snapshot it was given; with any other name it appends exactly one
    account, which carries the generated id, the name and the parsed opening
    balance, and leaves categories and transactions alone. *)
Theorem addAccount_spec :
  forall (rnd36 name : jsstring) (balance : formvalue) (d : snapshot),
    (forallb is_whitespace name = true ->
     addAccount parseFloat rnd36 name balance d = d)
    /\ (forallb is_whitespace name = false ->
        accounts (addAccount parseFloat rnd36 name balance d) =
          accounts d ++ [Account.mk (genId rnd36) name (parseFloat balance)]
        /\ categories (addAccount parseFloat rnd36 name balance d) =
           categories d
        /\ transactions (addAccount parseFloat rnd36 name balance d) =
           transactions d).
Proof.
intros rnd36 name balance d. unfold addAccount. rewrite falsy_trim.
split; intros ->; simpl; auto.
Qed.

End StoreFacts.

Lemma addAccount_spec_witness :
  addAccount parseFloat_number (lit "0.k3x9") (lit "") 100%float empty_snapshot
    = empty_snapshot
  /\ addAccount parseFloat_number (lit "0.k3x9") (lit "   ") 100%float empty_snapshot
     = empty_snapshot
  /\ accounts
       (addAccount parseFloat_number (lit "0.k3x9p2") (lit "Checking") 100%float
          empty_snapshot)
     = [Account.mk (lit "_k3x9p2") (lit "Checking") 100].
Proof.
split; [|split].
- exact (proj1 (addAccount_spec parseFloat_number (lit "0.k3x9") (lit "")
                  100%float empty_snapshot) eq_refl).
- exact (proj1 (addAccount_spec parseFloat_number (lit "0.k3x9") (lit "   ")
                  100%float empty_snapshot) eq_refl).
- exact (proj1 (proj2 (addAccount_spec parseFloat_number (lit "0.k3x9p2")
                         (lit "Checking") 100%float empty_snapshot) eq_refl)).
Defined.

(* ================================================================= *)
(** ** Category availability *)

Lemma signed_sum_from_fold (catId : jsstring) (txs : list Transaction.t) :
  forall acc,
    fold_left (fun s t => s + Transaction.amount t)%float
      (filter (fun tx => streq (Transaction.categoryId tx) catId) txs) acc
    = signed_sum_from acc catId txs.
Proof.
induction txs as [|t txs IH]; intros acc; simpl; [reflexivity|].
destruct (streq (Transaction.categoryId t) catId); simpl; apply IH.
Qed.

(** C4.  [availableInCategory(cat)] is [cat.budgeted] plus
    [spendingInCategory(cat.id)], and the latter is the signed sum of the
    amounts of the transactions of that category: no absolute value is taken,
    so income recorded against a category makes the sum positive (here
    [-20 + 50 = 30], and [100 + 30 = 130] is available). *)
Theorem availableInCategory_spec :
  (forall (data : snapshot) (cat : Category.t),
     spendingInCategory data (Category.id cat) =
       category_signed_sum data (Category.id cat)
     /\ availableInCategory data cat =
        (Category.budgeted cat + category_signed_sum data (Category.id cat))%float)
  /\ (let groceries := Category.mk (lit "_c1") (lit "Groceries") 100 in
      let tx amount :=
        Transaction.mk (lit "_a1") (lit "_c1") amount (lit "") (lit "_t")
          (lit "2024-05-01T10:00:00.000Z") in
      let data := Snapshot [] [groceries] [tx (-20)%float; tx 50%float] in
      spendingInCategory data (lit "_c1") = 30%float
      /\ availableInCategory data groceries = 130%float).
Proof.
split.
- intros data cat. unfold availableInCategory, spendingInCategory,
    category_signed_sum.
  rewrite signed_sum_from_fold. split; reflexivity.
- vm_compute. split; reflexivity.
Qed.

(* ================================================================= *)
(** ** Binary64 arithmetic: rounding keeps the sign *)

Section SpecFacts.
Local Open Scope Z_scope.
Variables prec emax : Z.
Hypothesis prec_pos : 0 < prec.

Abbreviation emin := (SpecFloat.emin prec emax).
Abbreviation fexp := (SpecFloat.fexp prec emax).

Lemma iter_pos_invariant {A} (P : A -> Prop) (f : A -> A) :
  (forall x, P x -> P (f x)) -> forall p x, P x -> P (iter_pos f p x).
Proof.
intros Hf. induction p as [p IH|p IH|]; intros x Hx; simpl; auto.
Qed.

Lemma shr_1_lower (k : Z) mrs :
  2 * k <= shr_m mrs -> k <= shr_m (shr_1 mrs).
Proof.
destruct mrs as [m r s]. unfold shr_1, shr_m.
destruct m as [|[p|p|]|[p|p|]]; lia.
Qed.

Lemma iter_shr_1_lower p :
  forall k mrs, 2 ^ Z.pos p * k <= shr_m mrs ->
                k <= shr_m (iter_pos shr_1 p mrs).
Proof.
induction p as [p IH|p IH|]; intros k mrs H; simpl.
- apply IH, IH, shr_1_lower.
  rewrite (Pos2Z.inj_xI p), Z.pow_add_r, Z.pow_twice_r in H by lia.
  change (2 ^ 1) with 2 in H. lia.
- apply IH, IH.
  rewrite (Pos2Z.inj_xO p), Z.pow_twice_r in H. lia.
- apply shr_1_lower. exact H.
Qed.

Lemma digits2_pos_size (m : positive) : digits2_pos m = Pos.size m.
Proof. induction m; simpl; congruence. Qed.

Lemma digits2_pos_upper (m : positive) : Z.pos m < 2 ^ Z.pos (digits2_pos m).
Proof.
rewrite digits2_pos_size. pose proof (Pos.size_gt m) as H.
rewrite <- Pos2Z.inj_pow. lia.
Qed.

Lemma digits2_pos_lower (m : positive) :
  2 ^ (Z.pos (digits2_pos m) - 1) <= Z.pos m.
Proof.
rewrite digits2_pos_size. pose proof (Pos.size_le m) as H.
assert (H' : 2 ^ Z.pos (Pos.size m) <= 2 * Z.pos m)
  by (rewrite <- Pos2Z.inj_pow; lia).
replace (Z.pos (Pos.size m)) with (Z.succ (Z.pos (Pos.size m) - 1)) in H'
  by lia.
rewrite Z.pow_succ_r in H' by lia. lia.
Qed.

Lemma shr_record_of_loc_m m l : shr_m (shr_record_of_loc m l) = m.
Proof. destruct l as [|[]]; reflexivity. Qed.

Lemma shr_fexp_nonneg m e l :
  0 <= m -> 0 <= shr_m (fst (shr_fexp prec emax m e l)).
Proof.
intros Hm. unfold shr_fexp, shr.
destruct (fexp (Zdigits2 m + e) - e) as [|p|p]; simpl;
  try (rewrite shr_record_of_loc_m; exact Hm).
apply (iter_pos_invariant (fun mrs => 0 <= shr_m mrs)).
- intros x Hx. apply shr_1_lower. lia.
- rewrite shr_record_of_loc_m; exact Hm.
Qed.

Lemma shr_fexp_pos m e l :
  emin <= e ->
  0 < shr_m (fst (shr_fexp prec emax (Z.pos m) e l))
  /\ emin <= snd (shr_fexp prec emax (Z.pos m) e l).
Proof.
intros He. unfold shr_fexp, shr. simpl Zdigits2.
destruct (fexp (Z.pos (digits2_pos m) + e) - e) as [|p|p] eqn:En; simpl;
  try (rewrite shr_record_of_loc_m; lia).
split.
- assert (H : 1 <= shr_m (iter_pos shr_1 p (shr_record_of_loc (Z.pos m) l))).
  { apply iter_shr_1_lower. rewrite shr_record_of_loc_m, Z.mul_1_r.
    unfold SpecFloat.fexp in En.
    transitivity (2 ^ (Z.pos (digits2_pos m) - 1)).
    - apply Z.pow_le_mono_r; lia.
    - apply digits2_pos_lower. }
  lia.
- lia.
Qed.

Lemma round_nearest_even_ge m l : m <= round_nearest_even m l.
Proof.
destruct l as [|[]]; simpl; try lia.
destruct (Z.even m); lia.
Qed.

Lemma binary_round_aux_signed sx m e l :
  0 <= m -> sf_signed sx (binary_round_aux prec emax sx m e l).
Proof.
intros Hm. unfold binary_round_aux.
pose proof (shr_fexp_nonneg m e l Hm) as H1.
destruct (shr_fexp prec emax m e l) as [mrs' e'] eqn:E1. simpl in H1.
pose proof (round_nearest_even_ge (shr_m mrs') (loc_of_shr_record mrs')) as H2.
pose proof (shr_fexp_nonneg
              (round_nearest_even (shr_m mrs') (loc_of_shr_record mrs'))
              e' loc_Exact ltac:(lia)) as H3.
destruct (shr_fexp prec emax _ e' loc_Exact) as [mrs'' e''] eqn:E2.
simpl in H3. unfold sf_signed.
destruct (shr_m mrs'') as [|p|p]; [auto | | lia].
destruct (e'' <=? emax - prec); eauto.
Qed.

Lemma binary_round_aux_nonzero sx m e l :
  emin <= e -> sf_nonzero sx (binary_round_aux prec emax sx (Z.pos m) e l).
Proof.
intros He. unfold binary_round_aux.
destruct (shr_fexp_pos m e l He) as [H1 H1e].
destruct (shr_fexp prec emax (Z.pos m) e l) as [mrs' e'] eqn:E1.
simpl in H1, H1e.
pose proof (round_nearest_even_ge (shr_m mrs') (loc_of_shr_record mrs')) as H2.
destruct (round_nearest_even (shr_m mrs') (loc_of_shr_record mrs'))
  as [|m2|m2] eqn:R; try lia.
destruct (shr_fexp_pos m2 e' loc_Exact H1e) as [H3 _].
destruct (shr_fexp prec emax (Z.pos m2) e' loc_Exact) as [mrs'' e''] eqn:E2.
simpl in H3. unfold sf_nonzero.
destruct (shr_m mrs'') as [|p|p]; try lia.
destruct (e'' <=? emax - prec); eauto.
Qed.

Lemma shl_align_snd m e e' : e' <= e -> snd (shl_align m e e') = e'.
Proof.
intros H. unfold shl_align. destruct (e' - e) eqn:E; simpl; lia.
Qed.

Lemma shl_align_fst m e e' :
  e' <= e -> Z.pos (fst (shl_align m e e')) = Z.pos m * 2 ^ (e - e').
Proof.
intros H. unfold shl_align. destruct (e' - e) as [|d|d] eqn:E; simpl; try lia.
- replace (e - e') with 0 by lia. simpl. lia.
- fold (shift_pos d m). rewrite shift_pos_correct, Z.pow_pos_fold.
  replace (e - e') with (Z.pos d) by lia. apply Z.mul_comm.
Qed.

Lemma binary_round_signed sx m e :
  sf_signed sx (binary_round prec emax sx m e).
Proof.
unfold binary_round.
destruct (shl_align m e (fexp (Z.pos (digits2_pos m) + e))) as [mz ez].
apply binary_round_aux_signed. lia.
Qed.

Lemma binary_round_nonzero sx m e :
  emin <= e -> sf_nonzero sx (binary_round prec emax sx m e).
Proof.
intros He. unfold binary_round.
destruct (shl_align m e (fexp (Z.pos (digits2_pos m) + e))) as [mz ez] eqn:E.
apply binary_round_aux_nonzero.
unfold shl_align in E.
destruct (fexp (Z.pos (digits2_pos m) + e) - e) eqn:D;
  injection E as _ <-; unfold SpecFloat.fexp in *; lia.
Qed.

Lemma bounded_emin m e : bounded prec emax m e = true -> emin <= e.
Proof.
unfold bounded, canonical_mantissa, SpecFloat.fexp.
intros H. apply andb_true_iff in H as [H _]. apply Z.eqb_eq in H. lia.
Qed.

Lemma bounded_digits m e :
  bounded prec emax m e = true ->
  Z.pos (digits2_pos m) <= prec
  /\ (emin < e -> Z.pos (digits2_pos m) = prec).
Proof.
unfold bounded, canonical_mantissa, SpecFloat.fexp.
intros H. apply andb_true_iff in H as [H _]. apply Z.eqb_eq in H. lia.
Qed.

(** Two canonical mantissas are ordered like the numbers they stand for. *)
Lemma bounded_lt_exp mx ex my ey :
  bounded prec emax mx ex = true -> bounded prec emax my ey = true ->
  ex < ey -> Z.pos mx < Z.pos my * 2 ^ (ey - ex).
Proof.
intros Bx By Hlt.
pose proof (bounded_emin _ _ Bx) as Hex.
destruct (bounded_digits _ _ Bx) as [Hdx _].
destruct (bounded_digits _ _ By) as [_ Hdy]. specialize (Hdy ltac:(lia)).
pose proof (digits2_pos_upper mx) as Ux.
pose proof (digits2_pos_lower my) as Ly. rewrite Hdy in Ly.
assert (P1 : 2 ^ Z.pos (digits2_pos mx) <= 2 ^ prec)
  by (apply Z.pow_le_mono_r; lia).
assert (P2 : 2 ^ 1 <= 2 ^ (ey - ex)) by (apply Z.pow_le_mono_r; lia).
assert (P3 : 2 ^ prec = 2 ^ (prec - 1) * 2 ^ 1)
  by (rewrite <- Z.pow_add_r by lia; f_equal; lia).
assert (P4 : 0 < 2 ^ (prec - 1)) by (apply Z.pow_pos_nonneg; lia).
nia.
Qed.

Lemma SFcompare_pos_finite mx ex my ey :
  bounded prec emax mx ex = true -> bounded prec emax my ey = true ->
  SFcompare (S754_finite false mx ex) (S754_finite false my ey) =
  Some (Z.pos (fst (shl_align mx ex (Z.min ex ey)))
        ?= Z.pos (fst (shl_align my ey (Z.min ex ey)))).
Proof.
intros Bx By.
rewrite !shl_align_fst by lia. unfold SFcompare.
destruct (Z.compare_spec ex ey) as [E|L|G].
- subst ey. rewrite Z.min_id, Z.sub_diag. change (2 ^ 0) with 1.
  rewrite !Z.mul_1_r.
  reflexivity.
- rewrite Z.min_l, Z.sub_diag by lia. change (2 ^ 0) with 1. rewrite Z.mul_1_r.
  symmetry. f_equal. apply Z.compare_lt_iff.
  now apply bounded_lt_exp.
- rewrite Z.min_r, Z.sub_diag by lia. change (2 ^ 0) with 1. rewrite Z.mul_1_r.
  symmetry. f_equal. apply Z.compare_gt_iff.
  now apply bounded_lt_exp.
Qed.

Lemma SFltb_zero x : SFltb (S754_zero false) x = sf_positive x.
Proof. destruct x as [s|s| |s m e]; try destruct s; reflexivity. Qed.

Lemma SFleb_zero x : SFleb (S754_zero false) x = sf_nonneg x.
Proof. destruct x as [s|s| |s m e]; try destruct s; reflexivity. Qed.

Lemma sf_signed_positive x : sf_signed true x -> sf_positive x = false.
Proof. intros [->|[->|(m & e & ->)]]; reflexivity. Qed.

Lemma sf_nonzero_positive x : sf_nonzero false x -> sf_positive x = true.
Proof. intros [->|(m & e & ->)]; reflexivity. Qed.

Lemma sf_signed_nonneg x : sf_signed false x -> sf_nonneg x = true.
Proof. intros [->|[->|(m & e & ->)]]; reflexivity. Qed.

(** The sign of a difference of two positive numbers tells their order. *)
Lemma SFsub_positive x y :
  SpecFloat.valid_binary prec emax x = true ->
  SpecFloat.valid_binary prec emax y = true ->
  sf_positive x = true -> sf_positive y = true ->
  sf_positive (SFsub prec emax y x) = SFltb x y.
Proof.
intros Vx Vy Px Py.
destruct x as [sx|sx| |sx mx ex]; try discriminate;
  destruct sx; try discriminate;
  destruct y as [sy|sy| |sy my ey]; try discriminate;
  destruct sy; try discriminate; try reflexivity.
simpl in Vx, Vy.
unfold SFltb. rewrite (SFcompare_pos_finite _ _ _ _ Vx Vy).
unfold SFsub, cond_Zopp. rewrite (Z.min_comm ey ex).
set (a := Z.pos (fst (shl_align mx ex (Z.min ex ey)))).
set (b := Z.pos (fst (shl_align my ey (Z.min ex ey)))).
pose proof (bounded_emin _ _ Vx). pose proof (bounded_emin _ _ Vy).
destruct (Z.compare_spec a b) as [E|L|G].
- rewrite E, Z.sub_diag. reflexivity.
- destruct (b - a) as [|d|d] eqn:D; try lia. simpl.
  apply sf_nonzero_positive, binary_round_nonzero. lia.
- destruct (b - a) as [|d|d] eqn:D; try lia. simpl.
  apply sf_signed_positive, binary_round_signed.
Qed.

(** A sum of two numbers that are not negative is not negative. *)
Lemma SFadd_nonneg x y :
  sf_nonneg x = true -> sf_nonneg y = true ->
  sf_nonneg (SFadd prec emax x y) = true.
Proof.
intros Px Py.
destruct x as [sx|sx| |sx mx ex]; try discriminate;
  destruct y as [sy|sy| |sy my ey]; try discriminate;
  try (destruct sx; try discriminate); try (destruct sy; try discriminate);
  try reflexivity.
unfold SFadd, cond_Zopp.
apply sf_signed_nonneg.
set (a := fst (shl_align mx ex (Z.min ex ey))).
set (b := fst (shl_align my ey (Z.min ex ey))).
simpl. apply binary_round_signed.
Qed.

End SpecFacts.

(** ** Binary64 *)

Lemma prec_positive : (0 < prec)%Z.
Proof. reflexivity. Qed.

Lemma Prim2SF_zero : Prim2SF 0 = S754_zero false.
Proof. reflexivity. Qed.

Lemma ltb_zero (x : float) : (0 <? x)%float = sf_positive (Prim2SF x).
Proof. rewrite ltb_spec, Prim2SF_zero. apply SFltb_zero. Qed.

Lemma leb_zero (x : float) : (0 <=? x)%float = sf_nonneg (Prim2SF x).
Proof. rewrite leb_spec, Prim2SF_zero. apply SFleb_zero. Qed.

Lemma positive_nonneg (x : float) :
  (0 <? x)%float = true -> (0 <=? x)%float = true.
Proof.
rewrite ltb_zero, leb_zero.
destruct (Prim2SF x) as [s|s| |s m e]; try destruct s; trivial.
Qed.

Lemma positive_not_zero (x : float) :
  (0 <? x)%float = true -> is_zero x = false.
Proof.
unfold is_zero. rewrite ltb_zero, eqb_spec.
change (Prim2SF zero) with (S754_zero false).
destruct (Prim2SF x) as [s|s| |s m e]; try destruct s; try discriminate;
  reflexivity.
Qed.

Lemma nonneg_not_positive (x : float) :
  (0 <=? x)%float = true -> (0 <? x)%float = false -> is_zero x = true.
Proof.
unfold is_zero. rewrite ltb_zero, leb_zero, eqb_spec.
change (Prim2SF zero) with (S754_zero false).
destruct (Prim2SF x) as [s|s| |s m e]; try destruct s; try discriminate;
  reflexivity.
Qed.

Lemma add_nonneg (x y : float) :
  (0 <=? x)%float = true -> (0 <=? y)%float = true ->
  (0 <=? x + y)%float = true.
Proof.
rewrite !leb_zero, add_spec. apply SFadd_nonneg.
Qed.

Lemma abs_negative (x : float) :
  (x <? 0)%float = true -> (0 <? abs x)%float = true.
Proof.
rewrite ltb_zero, ltb_spec, abs_spec, Prim2SF_zero.
destruct (Prim2SF x) as [s|s| |s m e]; try destruct s; try discriminate;
  reflexivity.
Qed.

Lemma sub_positive (x y : float) :
  (0 <? x)%float = true -> (0 <? y)%float = true ->
  (0 <? y - x)%float = (x <? y)%float.
Proof.
rewrite !ltb_zero, sub_spec, ltb_spec. intros Hx Hy.
apply (SFsub_positive prec emax prec_positive);
  auto using Prim2SF_valid.
Qed.

Lemma SFcompare_positive_antisym x y :
  sf_positive x = true -> sf_positive y = true ->
  SFcompare y x = option_map CompOpp (SFcompare x y).
Proof.
destruct x as [sx|sx| |sx mx ex]; try discriminate;
  destruct sx; try discriminate;
  destruct y as [sy|sy| |sy my ey]; try discriminate;
  destruct sy; try discriminate; intros _ _; try reflexivity.
simpl. rewrite (Z.compare_antisym ex ey).
destruct (ex ?= ey)%Z; simpl; try reflexivity.
now rewrite (Pos.compare_cont_antisym mx my Eq).
Qed.

Lemma positive_total (x y : float) :
  (0 <? x)%float = true -> (0 <? y)%float = true ->
  (x <? y)%float = false -> (y <=? x)%float = true.
Proof.
rewrite !ltb_zero, ltb_spec, leb_spec. intros Hx Hy.
unfold SFltb, SFleb. rewrite (SFcompare_positive_antisym _ _ Hx Hy).
destruct (Prim2SF x) as [sx|sx| |sx mx ex]; try discriminate;
  destruct sx; try discriminate;
  destruct (Prim2SF y) as [sy|sy| |sy my ey]; try discriminate;
  destruct sy; try discriminate; try reflexivity; try discriminate.
cbn [SFcompare option_map].
destruct (ex ?= ey)%Z; [destruct (Pos.compare_cont Eq mx my)| |];
  simpl; congruence.
Qed.

Lemma positive_asym (x y : float) :
  (0 <? x)%float = true -> (0 <? y)%float = true ->
  (x <? y)%float = true -> (y <? x)%float = false.
Proof.
rewrite !ltb_zero, !ltb_spec. intros Hx Hy.
unfold SFltb. rewrite (SFcompare_positive_antisym _ _ Hx Hy).
destruct (SFcompare _ _) as [[]|]; simpl; congruence.
Qed.

Lemma SFleb_positive_finite m1 e1 m2 e2 :
  SFleb (S754_finite false m1 e1) (S754_finite false m2 e2) = true <->
  (e1 < e2 \/ e1 = e2 /\ Z.pos m1 <= Z.pos m2)%Z.
Proof.
unfold SFleb, SFcompare. fold (Pos.compare m1 m2).
destruct (Z.compare_spec e1 e2); [destruct (Pos.compare_spec m1 m2)| |];
  split; intros; try reflexivity; try discriminate; lia.
Qed.

Lemma SFleb_positive_trans x y z :
  sf_positive x = true -> sf_positive y = true -> sf_positive z = true ->
  SFleb x y = true -> SFleb y z = true -> SFleb x z = true.
Proof.
destruct x as [sx|sx| |sx mx ex]; try discriminate;
  destruct sx; try discriminate;
  destruct y as [sy|sy| |sy my ey]; try discriminate;
  destruct sy; try discriminate;
  destruct z as [sz|sz| |sz mz ez]; try discriminate;
  destruct sz; try discriminate; intros _ _ _; try reflexivity;
  try discriminate.
rewrite !SFleb_positive_finite. lia.
Qed.

Lemma positive_leb_trans (x y z : float) :
  (0 <? x)%float = true -> (0 <? y)%float = true -> (0 <? z)%float = true ->
  (x <=? y)%float = true -> (y <=? z)%float = true -> (x <=? z)%float = true.
Proof.
rewrite !ltb_zero, !leb_spec. apply SFleb_positive_trans.
Qed.

(* ================================================================= *)
(** ** JSON: reading back what was written *)

Lemma stringify_arr items :
  JSON_stringify (JArr items) = TLBracket :: elements_text items ++ [TRBracket].
Proof. reflexivity. Qed.

Lemma stringify_obj props :
  JSON_stringify (JObj props) = TLBrace :: members_text props ++ [TRBrace].
Proof. reflexivity. Qed.

Lemma stringify_head v :
  exists t r, JSON_stringify v = t :: r /\ opens t = true.
Proof.
destruct v as [|[]|x|s|items|props].
- simpl; eauto.
- simpl; eauto.
- simpl; eauto.
- simpl. destruct (is_finite x); eauto.
- simpl; eauto.
- rewrite stringify_arr. simpl; eauto.
- rewrite stringify_obj. simpl; eauto.
Qed.

Lemma stringify_num x :
  num_exact x = true -> JSON_stringify (JNum x) = [TNumber x].
Proof.
unfold num_exact. intros H. apply andb_true_iff in H as [F E].
apply FloatAxioms.Leibniz.eqb_spec in E. simpl. now rewrite F, E.
Qed.

Lemma obj_put_fresh o k v :
  existsb (streq k) (map fst o) = false -> obj_put o k v = o ++ [(k, v)].
Proof.
induction o as [|[k' v'] o IH]; simpl; [reflexivity|].
intros H. apply orb_false_iff in H as [H1 H2].
assert (E : streq k' k = false).
{ destruct (streq k' k) eqn:E; [|reflexivity].
  apply streq_eq in E. subst. now rewrite streq_refl in H1. }
rewrite E. f_equal. now apply IH.
Qed.

Lemma existsb_app_false {A} (f : A -> bool) l1 l2 :
  existsb f (l1 ++ l2) = false <-> existsb f l1 = false /\ existsb f l2 = false.
Proof. rewrite existsb_app. apply orb_false_iff. Qed.

Lemma obj_of_members_distinct ms :
  keys_distinct (map fst ms) = true -> obj_of_members ms = ms.
Proof.
unfold obj_of_members.
assert (G : forall acc,
  keys_distinct (map fst ms) = true ->
  (forall k, In k (map fst ms) -> existsb (streq k) (map fst acc) = false) ->
  fold_left (fun o m => obj_put o (fst m) (snd m)) ms acc = acc ++ ms).
{ induction ms as [|[k v] ms IH]; intros acc D F; simpl.
  - now rewrite app_nil_r.
  - simpl in D. apply andb_true_iff in D as [D1 D2].
    apply negb_true_iff in D1.
    rewrite obj_put_fresh by (apply F; now left).
    rewrite IH; [now rewrite <- app_assoc| exact D2 |].
    intros k' Hk'. rewrite map_app. apply existsb_app_false. split.
    + apply F. now right.
    + simpl. rewrite orb_false_r.
      destruct (streq k' k) eqn:E; [|reflexivity].
      apply streq_eq in E. subst k'.
      assert (X : existsb (streq k) (map fst ms) = true).
      { apply existsb_exists. exists k. split; [exact Hk'|apply streq_refl]. }
      congruence. }
intros D. apply (G [] D). reflexivity.
Qed.

Lemma parse_value_arr n t r :
  opens t = true ->
  parse_value (S n) (TLBracket :: t :: r) =
  match parse_elements n (t :: r) with
  | Some (vs, r') => Some (JArr vs, r')
  | None => None
  end.
Proof. destruct t; try discriminate; reflexivity. Qed.

Lemma parse_value_obj n t r :
  opens t = true ->
  parse_value (S n) (TLBrace :: t :: r) =
  match parse_members n (t :: r) with
  | Some (ms, r') => Some (JObj (obj_of_members ms), r')
  | None => None
  end.
Proof. destruct t; try discriminate; reflexivity. Qed.

Lemma parse_elements_step n ts :
  parse_elements (S n) ts =
  match parse_value n ts with
  | Some (v, TComma :: r) =>
      match parse_elements n r with
      | Some (vs, r') => Some (v :: vs, r')
      | None => None
      end
  | Some (v, TRBracket :: r) => Some ([v], r)
  | _ => None
  end.
Proof. reflexivity. Qed.

Lemma parse_members_step n k r :
  parse_members (S n) (TString k :: TColon :: r) =
  match parse_value n r with
  | Some (v, TComma :: r') =>
      match parse_members n r' with
      | Some (ms, r'') => Some ((k, v) :: ms, r'')
      | None => None
      end
  | Some (v, TRBrace :: r') => Some ([(k, v)], r')
  | _ => None
  end.
Proof. reflexivity. Qed.

Lemma elements_head x l :
  exists t r, elements_text (x :: l) = t :: r /\ opens t = true.
Proof.
destruct (stringify_head x) as (t & r & E & O).
destruct l as [|y l]; simpl; rewrite E; simpl; eauto.
Qed.

Lemma members_head k x l :
  exists r, members_text ((k, x) :: l) = TString k :: r.
Proof. destruct l as [|y l]; simpl; eauto. Qed.

Lemma parse_roundtrip n :
  (forall v rest,
     json_exact v = true -> 2 * List.length (JSON_stringify v) <= n ->
     parse_value n (JSON_stringify v ++ rest) = Some (v, rest))
  /\ (forall items rest,
        items <> [] -> forallb json_exact items = true ->
        2 * List.length (elements_text items) + 1 <= n ->
        parse_elements n (elements_text items ++ TRBracket :: rest)
        = Some (items, rest))
  /\ (forall props rest,
        props <> [] -> forallb (fun p => json_exact (snd p)) props = true ->
        2 * List.length (members_text props) + 1 <= n ->
        parse_members n (members_text props ++ TRBrace :: rest)
        = Some (props, rest)).
Proof.
induction n as [|n (IHv & IHe & IHm)].
- repeat split; intros; try lia.
  destruct (stringify_head v) as (t & r & E & _). rewrite E in *.
  simpl in *. lia.
- repeat split.
  + intros v rest Hv Hn. destruct v as [|[]|x|s|items|props];
      try reflexivity.
    * simpl in Hv. rewrite (stringify_num x Hv). reflexivity.
    * rewrite stringify_arr in *. destruct items as [|x l]; [reflexivity|].
      destruct (elements_head x l) as (t & r & E & O).
      cbn [List.length] in Hn. rewrite length_app in Hn.
      cbn [List.length] in Hn.
      pose proof (IHe (x :: l) rest ltac:(discriminate) Hv ltac:(lia)) as P.
      cbn [List.app]. rewrite <- app_assoc. cbn [List.app].
      rewrite E in *. cbn [List.app] in *.
      rewrite (parse_value_arr _ _ _ O). now rewrite P.
    * rewrite stringify_obj in *. destruct props as [|[k x] l]; [reflexivity|].
      simpl in Hv. apply andb_true_iff in Hv as [D Hv].
      destruct (members_head k x l) as (r & E).
      cbn [List.length] in Hn. rewrite length_app in Hn.
      cbn [List.length] in Hn.
      pose proof (IHm ((k, x) :: l) rest ltac:(discriminate) Hv ltac:(lia))
        as P.
      cbn [List.app]. rewrite <- app_assoc. cbn [List.app].
      rewrite E in *. cbn [List.app] in *.
      rewrite (parse_value_obj _ (TString k) _ eq_refl). rewrite P.
      now rewrite (obj_of_members_distinct ((k, x) :: l) D).
  + intros items rest Hne Hv Hn. destruct items as [|x l]; [congruence|].
    simpl in Hv. apply andb_true_iff in Hv as [Hx Hl].
    rewrite parse_elements_step.
    destruct l as [|y l].
    * change (elements_text [x]) with (JSON_stringify x) in *.
      rewrite (IHv x _ Hx ltac:(lia)). reflexivity.
    * change (elements_text (x :: y :: l))
        with (JSON_stringify x ++ TComma :: elements_text (y :: l)) in *.
      rewrite length_app in Hn. cbn [List.length] in Hn.
      rewrite <- app_assoc. cbn [List.app].
      rewrite (IHv x _ Hx ltac:(lia)).
      rewrite (IHe (y :: l) rest ltac:(discriminate) Hl ltac:(lia)).
      reflexivity.
  + intros props rest Hne Hv Hn. destruct props as [|[k x] l]; [congruence|].
    simpl in Hv. apply andb_true_iff in Hv as [Hx Hl].
    destruct l as [|y l].
    * change (members_text [(k, x)])
        with (TString k :: TColon :: JSON_stringify x) in *.
      cbn [List.app List.length] in *. rewrite parse_members_step.
      rewrite (IHv x _ Hx ltac:(lia)). reflexivity.
    * change (members_text ((k, x) :: y :: l))
        with ((TString k :: TColon :: JSON_stringify x)
                ++ TComma :: members_text (y :: l)) in *.
      rewrite length_app in Hn. cbn [List.length] in Hn.
      rewrite <- app_assoc. cbn [List.app]. rewrite parse_members_step.
      rewrite (IHv x _ Hx ltac:(lia)).
      rewrite (IHm (y :: l) rest ltac:(discriminate) Hl ltac:(lia)).
      reflexivity.
Qed.

Lemma JSON_parse_stringify v :
  json_exact v = true -> JSON_parse (JSON_stringify v) = Some v.
Proof.
intros H. unfold JSON_parse.
rewrite <- (app_nil_r (JSON_stringify v)) at 2.
rewrite (proj1 (parse_roundtrip _) v [] H); [reflexivity|lia].
Qed.

(* ================================================================= *)
(** ** Sequences of operations *)

Lemma streq_sym (a b : jsstring) : streq a b = streq b a.
Proof.
destruct (streq a b) eqn:E.
- apply streq_eq in E. subst. symmetry. apply streq_refl.
- destruct (streq b a) eqn:E'; [|reflexivity].
  apply streq_eq in E'. subst. now rewrite streq_refl in E.
Qed.

Section SequenceFacts.
Context {formvalue : Type}.
Variable parseFloat : formvalue -> float.
Implicit Types (d : snapshot) (acts : list (action formvalue)).

Lemma run_snoc acts a d :
  run parseFloat (acts ++ [a]) d = step parseFloat (run parseFloat acts d) a.
Proof. unfold run. now rewrite fold_left_app. Qed.

Lemma valid_run_snoc acts a : forall d,
  valid_run parseFloat d (acts ++ [a]) <->
  valid_run parseFloat d acts /\ valid_action (run parseFloat acts d) a.
Proof.
induction acts as [|b acts IH]; intros d; simpl.
- tauto.
- rewrite IH. tauto.
Qed.

Lemma fresh_run_snoc acts a : forall d,
  fresh_run parseFloat d (acts ++ [a]) <->
  fresh_run parseFloat d acts /\ fresh_action (run parseFloat acts d) a.
Proof.
induction acts as [|b acts IH]; intros d; simpl.
- tauto.
- rewrite IH. tauto.
Qed.

Lemma addAccount_cases rnd36 name balance d :
  (forallb is_whitespace name = true /\
   addAccount parseFloat rnd36 name balance d = d)
  \/ (forallb is_whitespace name = false /\
      addAccount parseFloat rnd36 name balance d =
      Snapshot
        (accounts d ++ [Account.mk (genId rnd36) name (parseFloat balance)])
        (categories d) (transactions d)).
Proof.
unfold addAccount. rewrite falsy_trim.
destruct (forallb is_whitespace name); auto.
Qed.

Lemma addCategory_cases rnd36 name d :
  (forallb is_whitespace name = true /\ addCategory rnd36 name d = d)
  \/ (forallb is_whitespace name = false /\
      addCategory rnd36 name d =
      Snapshot (accounts d)
        (categories d ++ [Category.mk (genId rnd36) name 0]) (transactions d)).
Proof.
unfold addCategory. rewrite falsy_trim.
destruct (forallb is_whitespace name); auto.
Qed.

Lemma map_id_addTransaction rnd36 now tx d :
  map Account.id (accounts (addTransaction rnd36 now tx d)) =
  map Account.id (accounts d).
Proof.
simpl. rewrite map_map. apply map_ext. intros a.
now destruct (streq _ _).
Qed.

Lemma map_id_budgetCategory id delta d :
  map Category.id (categories (budgetCategory parseFloat id delta d)) =
  map Category.id (categories d).
Proof.
simpl. rewrite map_map. apply map_ext. intros c.
now destruct (streq _ _).
Qed.

Lemma transactions_run acts : forall d,
  transactions (run parseFloat acts d) = transactions d ++ logged acts.
Proof.
induction acts as [|a acts IH]; intros d.
- simpl. now rewrite app_nil_r.
- change (run parseFloat (a :: acts) d)
    with (run parseFloat acts (step parseFloat d a)).
  rewrite IH. destruct a as [r n b|r n|i dl|r nw tx]; simpl.
  + now destruct (addAccount_cases r n b d) as [[_ ->]|[_ ->]].
  + now destruct (addCategory_cases r n d) as [[_ ->]|[_ ->]].
  + reflexivity.
  + now rewrite <- app_assoc.
Qed.

Lemma logged_snoc acts a :
  logged (acts ++ [a]) =
  logged acts ++
  match a with
  | AddTransaction r nw tx => [logged_transaction r nw tx]
  | _ => []
  end.
Proof.
unfold logged. rewrite flat_map_app. simpl. now rewrite app_nil_r.
Qed.

Lemma opened_snoc acts a :
  opened parseFloat (acts ++ [a]) =
  opened parseFloat acts ++
  match a with
  | AddAccount _ name balance =>
      if forallb is_whitespace name then [] else [parseFloat balance]
  | _ => []
  end.
Proof.
unfold opened. rewrite flat_map_app. simpl. now rewrite app_nil_r.
Qed.

Lemma replayed_balance_snoc o id txs t :
  replayed_balance o id (txs ++ [t]) =
  if streq (Transaction.accountId t) id
  then (replayed_balance o id txs + Transaction.amount t)%float
  else replayed_balance o id txs.
Proof.
unfold replayed_balance. rewrite filter_app, fold_left_app. simpl.
now destruct (streq _ _).
Qed.

Lemma replayed_balance_unreferenced o id txs :
  Forall (fun t => Transaction.accountId t <> id) txs ->
  replayed_balance o id txs = o.
Proof.
unfold replayed_balance. induction 1 as [|t txs Ht _ IH]; [reflexivity|].
simpl. apply streq_neq in Ht. now rewrite Ht.
Qed.

Lemma reconciled_addTransaction rnd36 now tx txs os l :
  Forall2 (fun o a =>
             Account.balance a = replayed_balance o (Account.id a) txs) os l ->
  Forall2 (fun o a =>
             Account.balance a =
             replayed_balance o (Account.id a)
               (txs ++ [logged_transaction rnd36 now tx]))
    os
    (map (fun a =>
            if streq (Account.id a) (TxForm.accountId tx)
            then Account.mk (Account.id a) (Account.name a)
                   (Account.balance a + TxForm.amount tx)
            else a) l).
Proof.
induction 1 as [|o a os l H _ IH]; cbn [map]; constructor; [|exact IH].
rewrite replayed_balance_snoc.
cbn [logged_transaction Transaction.accountId Transaction.amount].
rewrite (streq_sym (TxForm.accountId tx)).
destruct (streq (Account.id a) (TxForm.accountId tx)) eqn:E;
  cbn [Account.id Account.balance]; rewrite E; congruence.
Qed.

Lemma reconciled_run acts d :
  valid_run parseFloat d acts ->
  reconciled parseFloat d acts
  /\ Forall (fun t => In (Transaction.accountId t)
                        (map Account.id (accounts (run parseFloat acts d))))
       (logged acts).
Proof.
unfold reconciled, opening_balances.
induction acts as [|a acts IH] using rev_ind; intros V.
- simpl. rewrite app_nil_r. split; [|constructor].
  induction (accounts d) as [|x l IHl]; simpl; constructor; auto.
- apply valid_run_snoc in V as [V Va]. destruct (IH V) as [R L]. clear IH.
  rewrite run_snoc, logged_snoc, opened_snoc.
  set (s := run parseFloat acts d) in *.
  destruct a as [r n b|r n|i dl|r nw tx]; simpl step.
  + destruct (addAccount_cases r n b s) as [[B ->]|[B ->]]; rewrite B.
    * rewrite !app_nil_r. auto.
    * simpl in Va. specialize (Va B). rewrite app_nil_r. simpl accounts.
      split.
      -- rewrite app_assoc. apply Forall2_app; [exact R|].
         constructor; [|constructor]. simpl.
         symmetry. apply replayed_balance_unreferenced.
         eapply Forall_impl; [|exact L]. simpl. intros t Ht E.
         rewrite E in Ht. contradiction.
      -- eapply Forall_impl; [|exact L]. simpl. intros t Ht.
         rewrite map_app. apply in_or_app. now left.
  + rewrite !app_nil_r.
    destruct (addCategory_cases r n s) as [[_ ->]|[_ ->]]; auto.
  + rewrite !app_nil_r. auto.
  + rewrite app_nil_r. split.
    * apply reconciled_addTransaction. exact R.
    * rewrite map_id_addTransaction. apply Forall_app. split; [exact L|].
      constructor; [exact Va|constructor].
Qed.

Lemma NoDup_snoc {A} (l : list A) (x : A) :
  NoDup l -> ~ In x l -> NoDup (l ++ [x]).
Proof.
induction 1 as [|y l Hy _ IH]; simpl; intros Hx.
- constructor; [tauto|constructor].
- constructor.
  + rewrite in_app_iff. simpl. intuition congruence.
  + apply IH. tauto.
Qed.

Lemma step_ids d a :
  (exists l, map Account.id (accounts (step parseFloat d a)) =
             map Account.id (accounts d) ++ l)
  /\ (exists l, map Category.id (categories (step parseFloat d a)) =
                map Category.id (categories d) ++ l)
  /\ (exists l, map Transaction.id (transactions (step parseFloat d a)) =
                map Transaction.id (transactions d) ++ l).
Proof.
destruct a as [r n b|r n|i dl|r nw tx]; cbn [step].
- destruct (addAccount_cases r n b d) as [[_ ->]|[_ ->]]; cbn [accounts
    categories transactions]; rewrite ?map_app;
    repeat split; eexists; try (symmetry; apply app_nil_r); reflexivity.
- destruct (addCategory_cases r n d) as [[_ ->]|[_ ->]]; cbn [accounts
    categories transactions]; rewrite ?map_app;
    repeat split; eexists; try (symmetry; apply app_nil_r); reflexivity.
- rewrite map_id_budgetCategory. cbn [accounts transactions budgetCategory].
  repeat split; exists []; now rewrite app_nil_r.
- rewrite map_id_addTransaction.
  cbn [categories transactions addTransaction]. rewrite map_app.
  repeat split; eexists; try (symmetry; apply app_nil_r); reflexivity.
Qed.

Lemma run_ids acts : forall d,
  (exists l, map Account.id (accounts (run parseFloat acts d)) =
             map Account.id (accounts d) ++ l)
  /\ (exists l, map Category.id (categories (run parseFloat acts d)) =
                map Category.id (categories d) ++ l)
  /\ (exists l, map Transaction.id (transactions (run parseFloat acts d)) =
                map Transaction.id (transactions d) ++ l).
Proof.
induction acts as [|a acts IH]; intros d.
- repeat split; exists []; simpl; now rewrite app_nil_r.
- change (run parseFloat (a :: acts) d)
    with (run parseFloat acts (step parseFloat d a)).
  destruct (IH (step parseFloat d a)) as ((la & Ea) & (lc & Ec) & (lt & Et)).
  destruct (step_ids d a) as ((la' & Ea') & (lc' & Ec') & (lt' & Et')).
  rewrite Ea, Ec, Et, Ea', Ec', Et', <- !app_assoc.
  repeat split; eexists; reflexivity.
Qed.

Lemma step_unique_ids d a :
  fresh_action d a -> unique_ids d -> unique_ids (step parseFloat d a).
Proof.
unfold unique_ids. intros F (Ua & Uc & Ut).
destruct a as [r n b|r n|i dl|r nw tx]; cbn [step].
- destruct (addAccount_cases r n b d) as [[_ ->]|[B ->]]; [auto|].
  cbn [accounts categories transactions]. rewrite map_app.
  repeat split; auto. apply NoDup_snoc; [assumption | exact (F B)].
- destruct (addCategory_cases r n d) as [[_ ->]|[B ->]]; [auto|].
  cbn [accounts categories transactions]. rewrite map_app.
  repeat split; auto. apply NoDup_snoc; [assumption | exact (F B)].
- rewrite map_id_budgetCategory. auto.
- rewrite map_id_addTransaction.
  cbn [categories transactions addTransaction]. rewrite map_app.
  repeat split; auto. apply NoDup_snoc; [assumption | exact F].
Qed.

Lemma run_unique_ids acts : forall d,
  fresh_run parseFloat d acts -> unique_ids d ->
  unique_ids (run parseFloat acts d).
Proof.
induction acts as [|a acts IH]; intros d F U; [exact U|].
destruct F as [Fa F].
change (run parseFloat (a :: acts) d)
  with (run parseFloat acts (step parseFloat d a)).
apply IH; [exact F|]. now apply step_unique_ids.
Qed.

End SequenceFacts.

(* ================================================================= *)
(** ** Month-over-month change *)

Lemma zero_not_positive (x : float) :
  is_zero x = true -> (0 <? x)%float = false.
Proof.
intros Z. destruct (0 <? x)%float eqn:P; [|reflexivity].
apply positive_not_zero in P. congruence.
Qed.

(** C6, as the code has it.  [spendingChange] is
    [(current - previous) / previous * 100] when [previous > 0] and [0]
    otherwise.  The division is only reached with a divisor that is not zero:
    computed with a division that refuses a zero divisor the expression
    always yields its value.  When [previous] is a zero of either sign, in
    particular for [(0, 0)], the result is [0]. *)
Theorem spendingChange_spec :
  (forall current previous : float,
     spendingChange current previous =
     if (0 <? previous)%float
     then ((current - previous) / previous * 100)%float
     else 0%float)
  /\ spendingChange 0 0 = 0%float
  /\ (forall current previous : float,
        spendingChange_checked current previous =
        Some (spendingChange current previous))
  /\ (forall current previous : float,
        is_zero previous = true -> spendingChange current previous = 0%float).
Proof.
split; [reflexivity|]. split; [reflexivity|]. split.
- intros current previous. unfold spendingChange_checked, spendingChange,
    checked_div.
  destruct (0 <? previous)%float eqn:P; [|reflexivity].
  now rewrite (positive_not_zero _ P).
- intros current previous Z. unfold spendingChange.
  now rewrite (zero_not_positive _ Z).
Qed.

(** C6 as stated fails where it promises that the result is never infinite
    or [NaN]: the guard only excludes a zero divisor.  With a spend of 1e307
    this month and of 1 in the month compared with, both finite, the
    change overflows to infinity; with an infinite previous spend it is
    [NaN]. *)
Lemma spendingChange_overflow_counterexample :
  let tx date amount :=
    Transaction.mk (lit "_a1") (lit "_c1") amount (lit "") (lit "_t") date in
  let data :=
    Snapshot [] []
      [tx (lit "2024-04-11T10:00:00.000Z") (-1)%float;
       tx (lit "2024-05-01T10:00:00.000Z") (-1e307)%float] in
  monthSpending data (lit "2024-05") = 1e307%float
  /\ monthSpending data (lit "2024-04") = 1%float
  /\ is_finite 1e307 = true
  /\ (0 <? 1)%float = true
  /\ spendingChange 1e307 1 = infinity
  /\ is_nan (spendingChange 5 infinity) = true.
Proof.
intros tx data. repeat split.
Qed.

(* ================================================================= *)
(** ** Spend per category *)

Lemma abs_spend_from_fold (catId : jsstring) (txs : list Transaction.t) :
  forall acc,
    fold_left (fun sum tx => sum + abs (Transaction.amount tx))%float
      (filter (fun tx => streq (Transaction.categoryId tx) catId
                         && (Transaction.amount tx <? 0)%float) txs) acc
    = abs_spend_from acc catId txs.
Proof.
induction txs as [|t txs IH]; intros acc; simpl; [reflexivity|].
destruct (streq (Transaction.categoryId t) catId
          && (Transaction.amount t <? 0)%float); simpl; apply IH.
Qed.

Lemma spending_abs_spend (data : snapshot) (catId : jsstring) :
  spending data catId = category_abs_spend data catId.
Proof. apply abs_spend_from_fold. Qed.

Lemma abs_spend_from_nonneg (catId : jsstring) (txs : list Transaction.t) :
  forall acc,
    (0 <=? acc)%float = true ->
    (0 <=? abs_spend_from acc catId txs)%float = true.
Proof.
induction txs as [|t txs IH]; intros acc Hacc; simpl; [exact Hacc|].
destruct (streq (Transaction.categoryId t) catId) ; simpl; [|now apply IH].
destruct (Transaction.amount t <? 0)%float eqn:N; [|now apply IH].
apply IH, add_nonneg; [exact Hacc|].
now apply positive_nonneg, abs_negative.
Qed.

Lemma spending_nonneg (data : snapshot) (catId : jsstring) :
  (0 <=? spending data catId)%float = true.
Proof.
rewrite spending_abs_spend. now apply abs_spend_from_nonneg.
Qed.

Lemma not_nonneg_negative (x : float) :
  (0 <=? x)%float = false -> is_nan x = false -> (x <? 0)%float = true.
Proof.
unfold is_nan. rewrite leb_zero, eqb_spec, ltb_spec, Prim2SF_zero.
destruct (Prim2SF x) as [s|s| |s m e]; try destruct s; try discriminate;
  reflexivity.
Qed.

Lemma is_nan_spec (x : float) : is_nan x = true -> Prim2SF x = S754_nan.
Proof.
unfold is_nan. rewrite eqb_spec.
destruct (Prim2SF x) as [s|s| |s m e]; try reflexivity;
  unfold SFeqb, SFcompare; try (destruct s; discriminate).
rewrite Z.compare_refl, Pos.compare_cont_refl. destruct s; discriminate.
Qed.

Lemma nan_add_not_nonneg (x y : float) :
  is_nan x = true -> (0 <=? x + y)%float = false.
Proof.
intros H. rewrite leb_zero, add_spec, (is_nan_spec x H). reflexivity.
Qed.

(** C10, as the code has it.  Every entry of [budgetStatus] belongs to a
    category, of which it repeats id, name and budget; its [spending] is the
    total of the absolute values of the negative amounts of the category,
    which is never negative; [available] is [budgeted + spending], and the
    status is [good] exactly when [available >= 0].  So a budget that is
    [>= 0] gives an [available] that is [>= 0] and the status [good].  The
    status [over] needs a budget that is not [>= 0]: a negative one, or
    [NaN]; and a budget that is [NaN] always gives [over]. *)
Theorem budgetStatus_spec :
  forall (data : snapshot) (e : BudgetEntry.t),
    In e (budgetStatus data) ->
    (exists cat,
       In cat (categories data)
       /\ BudgetEntry.id e = Category.id cat
       /\ BudgetEntry.name e = Category.name cat
       /\ BudgetEntry.budgeted e = Category.budgeted cat
       /\ BudgetEntry.spending e = category_abs_spend data (Category.id cat))
    /\ (0 <=? BudgetEntry.spending e)%float = true
    /\ BudgetEntry.available e =
       (BudgetEntry.budgeted e + BudgetEntry.spending e)%float
    /\ BudgetEntry.status e =
       (if (0 <=? BudgetEntry.available e)%float then good else over)
    /\ ((0 <=? BudgetEntry.budgeted e)%float = true ->
        (0 <=? BudgetEntry.available e)%float = true
        /\ BudgetEntry.status e = good)
    /\ (BudgetEntry.status e = over ->
        (0 <=? BudgetEntry.budgeted e)%float = false
        /\ (is_nan (BudgetEntry.budgeted e) = false ->
            (BudgetEntry.budgeted e <? 0)%float = true))
    /\ (is_nan (BudgetEntry.budgeted e) = true ->
        BudgetEntry.status e = over).
Proof.
intros data e He. unfold budgetStatus in He.
apply in_map_iff in He as (cat & <- & Hc). cbn.
pose proof (spending_nonneg data (Category.id cat)) as Hs.
assert (G : (0 <=? Category.budgeted cat)%float = true ->
            (0 <=? Category.budgeted cat
                   + spending data (Category.id cat))%float = true)
  by (intros Hb; now apply add_nonneg).
split; [exists cat; auto using spending_abs_spend|].
split; [exact Hs|]. split; [reflexivity|]. split; [reflexivity|].
split; [|split].
- intros Hb. rewrite (G Hb). auto.
- intros Ho.
  destruct (0 <=? Category.budgeted cat)%float eqn:Hb.
  + rewrite (G eq_refl) in Ho. discriminate.
  + split; [reflexivity|]. now apply not_nonneg_negative.
- intros Hn. now rewrite (nan_add_not_nonneg _ _ Hn).
Qed.

Lemma budgetStatus_spec_witness :
  let groceries := Category.mk (lit "_c1") (lit "Groceries") 50 in
  let rent := Category.mk (lit "_c2") (lit "Rent") (-50) in
  let tx cat amount :=
    Transaction.mk (lit "_a1") cat amount (lit "") (lit "_t")
      (lit "2024-05-01T10:00:00.000Z") in
  let data :=
    Snapshot [] [groceries; rent]
      [tx (lit "_c1") (-20)%float; tx (lit "_c1") 5%float;
       tx (lit "_c2") (-20)%float] in
  let e1 := BudgetEntry.mk (lit "_c1") (lit "Groceries") 50 20 70 good in
  let e2 := BudgetEntry.mk (lit "_c2") (lit "Rent") (-50) 20 (-30) over in
  budgetStatus data = [e1; e2]
  /\ (0 <=? BudgetEntry.available e1)%float = true
  /\ (BudgetEntry.budgeted e2 <? 0)%float = true.
Proof.
intros groceries rent tx data e1 e2.
assert (H1 : In e1 (budgetStatus data)) by (left; reflexivity).
assert (H2 : In e2 (budgetStatus data)) by (right; left; reflexivity).
split; [reflexivity|].
destruct (budgetStatus_spec data e1 H1) as (_ & _ & _ & _ & Hg & _).
destruct (budgetStatus_spec data e2 H2) as (_ & _ & _ & _ & _ & Ho & _).
split.
- exact (proj1 (Hg eq_refl)).
- exact (proj2 (Ho eq_refl) eq_refl).
Defined.

(** C10 as stated fails where it says that [over] needs a negative budget: a
    budget that is [NaN] is not negative and gives [over]. *)
Lemma budgetStatus_nan_counterexample :
  let data := Snapshot [] [Category.mk (lit "_c1") (lit "Groceries") nan] [] in
  map BudgetEntry.status (budgetStatus data) = [over]
  /\ map (fun e => (BudgetEntry.budgeted e <? 0)%float) (budgetStatus data)
     = [false].
Proof.
intros data. split; reflexivity.
Qed.

(* ================================================================= *)
(** ** The ranking of categories by spend *)

Lemma sort_insert_perm {A} (cmp : A -> A -> float) (x : A) (l : list A) :
  Permutation (sort_insert cmp x l) (x :: l).
Proof.
induction l as [|y l IH]; simpl; [reflexivity|].
destruct (0 <? cmp x y)%float; [|reflexivity].
rewrite IH. apply perm_swap.
Qed.

Lemma sort_perm {A} (cmp : A -> A -> float) (l : list A) :
  Permutation (sort cmp l) l.
Proof.
induction l as [|x l IH]; simpl; [reflexivity|].
rewrite sort_insert_perm. now constructor.
Qed.

Lemma sort_insert_desc (x : ChartItem.t) (l : list ChartItem.t) :
  has_spend x = true -> Forall (fun i => has_spend i = true) l ->
  StronglySorted by_value_desc l ->
  StronglySorted by_value_desc (sort_insert value_desc x l).
Proof.
unfold has_spend. intros Hx Hl S. induction S as [|y l S IH Hy]; simpl.
- repeat constructor.
- inversion Hl as [|? ? Py Pl]; subst.
  unfold value_desc at 1. rewrite (sub_positive _ _ Hx Py).
  destruct (ChartItem.value x <? ChartItem.value y)%float eqn:L.
  + constructor; [now apply IH|].
    rewrite sort_insert_perm.
    constructor; [|exact Hy].
    unfold by_value_desc. apply positive_total; auto.
    now apply positive_asym.
  + assert (Hyx : by_value_desc x y)
      by (unfold by_value_desc; now apply positive_total).
    constructor; [now constructor|].
    constructor; [exact Hyx|].
    rewrite Forall_forall in *. intros z Hz.
    unfold by_value_desc in *.
    apply (positive_leb_trans _ (ChartItem.value y)); auto.
Qed.

Lemma sort_desc (l : list ChartItem.t) :
  Forall (fun i => has_spend i = true) l ->
  StronglySorted by_value_desc (sort value_desc l).
Proof.
induction 1 as [|x l Hx Hl IH]; simpl; [constructor|].
apply sort_insert_desc; auto.
now rewrite sort_perm.
Qed.

(** C5.  [spendingByCategory] holds, for the categories with a spend that
    is not zero and for no other, one item with the name of the category and
    the total of the absolute values of its negative amounts; no item is
    followed by one of larger value.  Spends of 30 and 10 come out as
    [30, 10], whichever category was created first. *)
Theorem spendingByCategory_spec :
  (forall data : snapshot,
     Permutation (spendingByCategory data)
       (filter (fun item => negb (is_zero (ChartItem.value item)))
          (map (fun cat =>
                  ChartItem.mk (Category.name cat)
                    (category_abs_spend data (Category.id cat)))
             (categories data)))
     /\ StronglySorted
          (fun a b => (ChartItem.value b <=? ChartItem.value a)%float = true)
          (spendingByCategory data))
  /\ (let tx cat amount :=
        Transaction.mk (lit "_a1") cat amount (lit "") (lit "_t")
          (lit "2024-05-01T10:00:00.000Z") in
      let txs := [tx (lit "_c1") (-10)%float; tx (lit "_c2") (-30)%float;
                  tx (lit "_c1") 5%float] in
      let fun_ := Category.mk (lit "_c1") (lit "Fun") 0 in
      let rent := Category.mk (lit "_c2") (lit "Rent") 0 in
      spendingByCategory (Snapshot [] [fun_; rent] txs) =
        [ChartItem.mk (lit "Rent") 30; ChartItem.mk (lit "Fun") 10]
      /\ spendingByCategory (Snapshot [] [rent; fun_] txs) =
        [ChartItem.mk (lit "Rent") 30; ChartItem.mk (lit "Fun") 10]).
Proof.
split; [|vm_compute; split; reflexivity].
intros data. unfold spendingByCategory. split.
- rewrite sort_perm.
  rewrite (map_ext
             (fun cat => ChartItem.mk (Category.name cat)
                           (category_abs_spend data (Category.id cat)))
             (fun cat => ChartItem.mk (Category.name cat)
                           (spending data (Category.id cat))))
    by (intros; now rewrite spending_abs_spend).
  apply Permutation_refl'. apply filter_ext_in.
  intros item Hi. apply in_map_iff in Hi as (cat & <- & _).
  cbn [ChartItem.value].
  pose proof (spending_nonneg data (Category.id cat)) as N.
  destruct (0 <? spending data (Category.id cat))%float eqn:P.
  + now rewrite (positive_not_zero _ P).
  + now rewrite (nonneg_not_positive _ N P).
- apply sort_desc. apply Forall_forall. intros item Hi.
  now apply filter_In in Hi as [_ Hi].
Qed.

(* ================================================================= *)
(** ** Balances and the transaction log *)

Lemma float_neq (x y : float) : PrimFloat.Leibniz.eqb x y = false -> x <> y.
Proof.
intros H E. apply FloatAxioms.Leibniz.eqb_spec in E. congruence.
Qed.

(** C1, as the code has it.  After a valid sequence of operations, started
    in any snapshot, the log is the initial log followed by the transactions
    of the sequence, and every account holds its opening balance with the
    amounts of the transactions of the sequence that name it added one after
    the other, in log order. *)
Theorem balance_replays_log :
  forall (formvalue : Type) (parseFloat : formvalue -> float)
         (acts : list (action formvalue)) (d : snapshot),
    valid_run parseFloat d acts ->
    transactions (run parseFloat acts d) = transactions d ++ logged acts
    /\ Forall2
         (fun opening a =>
            Account.balance a =
            replayed_balance opening (Account.id a) (logged acts))
         (opening_balances parseFloat d acts)
         (accounts (run parseFloat acts d)).
Proof.
intros formvalue parseFloat acts d V. split.
- apply transactions_run.
- exact (proj1 (reconciled_run parseFloat acts d V)).
Qed.

Lemma balance_replays_log_witness :
  let acts :=
    [AddAccount (lit "0.k3x9p2") (lit "Checking") 100%float;
     AddCategory (lit "0.c7r2m1") (lit "Groceries");
     AddTransaction (lit "0.t5w8q4") (lit "2024-05-01T10:00:00.000Z")
       (TxForm.mk (lit "_k3x9p2") (lit "_c7r2m1") (-20) (lit "milk"))] in
  valid_run parseFloat_number empty_snapshot acts
  /\ accounts (run parseFloat_number acts empty_snapshot) =
     [Account.mk (lit "_k3x9p2") (lit "Checking") 80]
  /\ Forall2
       (fun opening a =>
          Account.balance a =
          replayed_balance opening (Account.id a) (logged acts))
       (opening_balances parseFloat_number empty_snapshot acts)
       (accounts (run parseFloat_number acts empty_snapshot)).
Proof.
intros acts.
assert (V : valid_run parseFloat_number empty_snapshot acts).
{ simpl. repeat split; auto; try (left; reflexivity). }
split; [exact V|]. split; [reflexivity|].
exact (proj2 (balance_replays_log float parseFloat_number acts
                empty_snapshot V)).
Defined.

(** C1 as stated fails: binary64 addition is not associative, so the
    balance, which adds the amounts to the opening balance one by one, can
    differ from the opening balance plus the sum of the amounts.  An account
    opened with 0.1 that receives 0.2 and then 0.3 holds
    0.6000000000000001, while 0.1 + (0.2 + 0.3) is 0.6. *)
Lemma balance_sum_counterexample :
  let acts :=
    [AddAccount (lit "0.k3x9p2") (lit "Checking") 0.1%float;
     AddTransaction (lit "0.t5w8q4") (lit "2024-05-01T10:00:00.000Z")
       (TxForm.mk (lit "_k3x9p2") (lit "_c1") 0.2 (lit ""));
     AddTransaction (lit "0.u1v2w3") (lit "2024-05-02T10:00:00.000Z")
       (TxForm.mk (lit "_k3x9p2") (lit "_c1") 0.3 (lit ""))] in
  valid_run parseFloat_number empty_snapshot acts
  /\ ~ Forall2
         (fun opening a =>
            Account.balance a =
            (opening +
             fold_left (fun s t => s + Transaction.amount t)
               (filter (fun t => streq (Transaction.accountId t)
                                   (Account.id a))
                  (transactions (run parseFloat_number acts empty_snapshot)))
               0)%float)
         (opening_balances parseFloat_number empty_snapshot acts)
         (accounts (run parseFloat_number acts empty_snapshot)).
Proof.
intros acts. split.
- simpl. repeat split; auto; try (left; reflexivity).
- intros H. vm_compute in H. inversion H as [|? ? ? ? E _]; subst.
  revert E. apply float_neq. reflexivity.
Qed.

(* ================================================================= *)
(** ** Identifiers *)

(** C9, as the code has it.  No operation changes an id: the ids of each
    collection after a sequence of operations start with the ids it had
    before, in the same order.  The ids of each collection stay pairwise
    distinct provided every id that [genId()] returns is not yet in the
    collection it enters; the code itself does not check this. *)
Theorem ids_stable_distinct_when_fresh :
  forall (formvalue : Type) (parseFloat : formvalue -> float)
         (acts : list (action formvalue)) (d : snapshot),
    ((exists l, map Account.id (accounts (run parseFloat acts d)) =
                map Account.id (accounts d) ++ l)
     /\ (exists l, map Category.id (categories (run parseFloat acts d)) =
                   map Category.id (categories d) ++ l)
     /\ (exists l,
           map Transaction.id (transactions (run parseFloat acts d)) =
           map Transaction.id (transactions d) ++ l))
    /\ (fresh_run parseFloat d acts -> unique_ids d ->
        unique_ids (run parseFloat acts d)).
Proof.
intros formvalue parseFloat acts d. split.
- apply run_ids.
- apply run_unique_ids.
Qed.

Lemma ids_stable_distinct_when_fresh_witness :
  let acts :=
    [AddAccount (lit "0.k3x9p2") (lit "Checking") 100%float;
     AddAccount (lit "0.m4n5b6") (lit "Savings") 5%float;
     AddCategory (lit "0.c7r2m1") (lit "Groceries");
     AddTransaction (lit "0.t5w8q4") (lit "2024-05-01T10:00:00.000Z")
       (TxForm.mk (lit "_k3x9p2") (lit "_c7r2m1") (-20) (lit "milk"))] in
  fresh_run parseFloat_number empty_snapshot acts
  /\ unique_ids (run parseFloat_number acts empty_snapshot).
Proof.
intros acts.
assert (F : fresh_run parseFloat_number empty_snapshot acts).
{ simpl. repeat split; auto. intros _ [E|[]]. discriminate E. }
split; [exact F|].
apply (ids_stable_distinct_when_fresh float parseFloat_number acts
         empty_snapshot); [exact F|].
repeat split; constructor.
Defined.

(** C9 as stated fails: [genId()] keeps no record of the ids it gave out,
    and when [Math.random()] repeats a value two accounts share an id. *)
Lemma ids_distinct_counterexample :
  ~ NoDup
      (map Account.id
         (accounts
            (run parseFloat_number
               [AddAccount (lit "0.k3x9p2") (lit "Checking") 100%float;
                AddAccount (lit "0.k3x9p2") (lit "Savings") 5%float]
               empty_snapshot))).
Proof.
intros H. vm_compute in H. inversion H as [|? ? N _]; subst.
apply N. left. reflexivity.
Qed.

(* ================================================================= *)
(** ** Saving, loading and importing *)

Lemma getItem_setItem (ls : storage) (key : jsstring) (value : text) :
  getItem (setItem ls key value) key = Some value.
Proof. unfold setItem. simpl. now rewrite streq_refl. Qed.

Lemma forallb_map_ext {A B} (f : B -> bool) (g : A -> B) (h : A -> bool)
  (l : list A) :
  (forall x, f (g x) = h x) -> forallb f (map g l) = forallb h l.
Proof.
intros E. induction l as [|x l IH]; simpl; [reflexivity|].
now rewrite E, IH.
Qed.

Lemma account_exact (a : Account.t) :
  json_exact (js_of_account a) = num_exact (Account.balance a).
Proof.
unfold js_of_account. cbn [json_exact map fst snd forallb].
change (keys_distinct _) with true. cbn [andb]. apply andb_true_r.
Qed.

Lemma category_exact (c : Category.t) :
  json_exact (js_of_category c) = num_exact (Category.budgeted c).
Proof.
unfold js_of_category. cbn [json_exact map fst snd forallb].
change (keys_distinct _) with true. cbn [andb]. apply andb_true_r.
Qed.

Lemma transaction_exact (t : Transaction.t) :
  json_exact (js_of_transaction t) = num_exact (Transaction.amount t).
Proof.
unfold js_of_transaction. cbn [json_exact map fst snd forallb].
change (keys_distinct _) with true. cbn [andb]. now rewrite !andb_true_r.
Qed.

Lemma snapshot_json_exact (d : snapshot) :
  snapshot_exact d = true -> json_exact (js_of_snapshot d) = true.
Proof.
unfold snapshot_exact. intros H.
apply andb_true_iff in H as [H Ht]. apply andb_true_iff in H as [Ha Hc].
unfold js_of_snapshot. cbn [json_exact map fst snd forallb].
change (keys_distinct _) with true. cbn [andb].
rewrite (forallb_map_ext _ _ _ _ account_exact), Ha.
rewrite (forallb_map_ext _ _ _ _ category_exact), Hc.
rewrite (forallb_map_ext _ _ _ _ transaction_exact), Ht.
reflexivity.
Qed.

Lemma stringify_nonempty (v : jsval) : JSON_stringify v <> [].
Proof.
destruct (stringify_head v) as (t & r & E & _). rewrite E. discriminate.
Qed.

Lemma loadData_saveData (v : jsval) (ls : storage) :
  json_exact v = true -> loadData (saveData v ls) = v.
Proof.
intros H. unfold loadData, saveData. rewrite getItem_setItem.
destruct (JSON_stringify v) as [|t r] eqn:E.
- now apply stringify_nonempty in E.
- rewrite <- E. now rewrite (JSON_parse_stringify v H).
Qed.

Lemma map_injective {A B} (f : A -> B) :
  (forall x y, f x = f y -> x = y) ->
  forall l l', map f l = map f l' -> l = l'.
Proof.
intros Hf. induction l as [|x l IH]; intros [|y l']; simpl;
  try discriminate; [reflexivity|].
intros E. injection E as E1 E2. f_equal; auto.
Qed.

Lemma js_of_snapshot_injective (d d' : snapshot) :
  js_of_snapshot d = js_of_snapshot d' -> d = d'.
Proof.
destruct d as [a c t], d' as [a' c' t']. unfold js_of_snapshot. simpl.
intros E. injection E as Ea Ec Et. f_equal.
- revert Ea. apply map_injective. intros [] [] E. now injection E as -> -> ->.
- revert Ec. apply map_injective. intros [] [] E. now injection E as -> -> ->.
- revert Et. apply map_injective. intros [] [] E.
  now injection E as -> -> -> -> -> ->.
Qed.

(** C7, as the code has it.  A snapshot whose balances, budgets and amounts
    are all finite and not negative zero is read back from the store exactly
    as it was saved, whatever the store held before; and the value read back
    determines the snapshot. *)
Theorem loadData_saveData_exact :
  forall (d : snapshot) (ls : storage),
    snapshot_exact d = true ->
    loadData (saveData (js_of_snapshot d) ls) = js_of_snapshot d
    /\ (forall d', loadData (saveData (js_of_snapshot d) ls) =
                   js_of_snapshot d' -> d' = d).
Proof.
intros d ls H.
rewrite (loadData_saveData _ ls (snapshot_json_exact d H)).
split; [reflexivity|]. intros d' E. symmetry.
now apply js_of_snapshot_injective.
Qed.

Lemma loadData_saveData_exact_witness :
  let d :=
    Snapshot [Account.mk (lit "_k3x9p2") (lit "Checking") 80.5]
      [Category.mk (lit "_c7r2m1") (lit "Groceries") 0]
      [Transaction.mk (lit "_k3x9p2") (lit "_c7r2m1") (-19.5) (lit "milk")
         (lit "_t5w8q4") (lit "2024-05-01T10:00:00.000Z")] in
  snapshot_exact d = true
  /\ loadData (saveData (js_of_snapshot d) []) = js_of_snapshot d.
Proof.
intros d. split; [reflexivity|].
exact (proj1 (loadData_saveData_exact d [] eq_refl)).
Defined.

(** C7 as stated fails: JSON has no text for [NaN] or the infinities, and
    [JSON.stringify] writes [null] in their place.  An account whose balance
    is [NaN], which is what [parseFloat] makes of an empty balance field,
    comes back with the balance [null]. *)
Lemma loadData_saveData_counterexample :
  let d := Snapshot [Account.mk (lit "_k3x9p2") (lit "Cash") nan] [] [] in
  loadData (saveData (js_of_snapshot d) []) <> js_of_snapshot d.
Proof.
intros d H. vm_compute in H. discriminate H.
Qed.

(** C8.  When the text of the uploaded file does not parse, the promise of
    [loadDataFromFile] is rejected with "Invalid JSON file", the handler
    shows that error and the application data stay as they were; when it
    parses, the application data become the parsed value, whatever they were
    before, and nothing is shown.  Either way loading is over. *)
Theorem handleFileUpload_spec :
  forall (blob : text) (st : app),
    (JSON_parse blob = None ->
     loadDataFromFile (FileText blob) = Rejected (lit "Invalid JSON file")
     /\ data (handleFileUpload (Some (FileText blob)) st) = data st
     /\ alerts (handleFileUpload (Some (FileText blob)) st) =
        alerts st ++ [lit "Error loading file: Invalid JSON file"])
    /\ (forall v, JSON_parse blob = Some v ->
          loadDataFromFile (FileText blob) = Resolved v
          /\ data (handleFileUpload (Some (FileText blob)) st) = v
          /\ alerts (handleFileUpload (Some (FileText blob)) st) = alerts st)
    /\ isLoading (handleFileUpload (Some (FileText blob)) st) = false.
Proof.
intros blob st. unfold handleFileUpload, loadDataFromFile.
destruct (JSON_parse blob) as [v|]; cbn [data alerts isLoading].
- split; [discriminate|]. split; [|reflexivity].
  intros v' E. injection E as <-. auto.
- split; [auto|]. split; [discriminate|reflexivity].
Qed.

Lemma handleFileUpload_spec_witness :
  let before :=
    App (js_of_snapshot
           (Snapshot [Account.mk (lit "_k3x9p2") (lit "Checking") 80] [] []))
      false [] in
  let empty_doc :=
    [TLBrace; TString (lit "accounts"); TColon; TLBracket; TRBracket; TComma;
     TString (lit "categories"); TColon; TLBracket; TRBracket; TComma;
     TString (lit "transactions"); TColon; TLBracket; TRBracket; TRBrace] in
  let broken := [TLBrace; TString (lit "accounts"); TColon; TLBracket] in
  data (handleFileUpload (Some (FileText empty_doc)) before) =
    js_of_snapshot empty_snapshot
  /\ data (handleFileUpload (Some (FileText broken)) before) = data before
  /\ alerts (handleFileUpload (Some (FileText broken)) before) =
     [lit "Error loading file: Invalid JSON file"].
Proof.
intros before empty_doc broken.
destruct (handleFileUpload_spec empty_doc before) as (_ & Hok & _).
destruct (handleFileUpload_spec broken before) as (Hbad & _).
destruct (Hok (js_of_snapshot empty_snapshot) eq_refl) as (_ & Hd & _).
destruct (Hbad eq_refl) as (_ & Hd' & Ha').
split; [exact Hd|]. split; [exact Hd'|exact Ha'].
Defined.

(* ################################################################# *)
(** * Further properties of the code *)

(* ================================================================= *)
(** ** The other store operations *)

(** X1.  [addCategory] with a name that is empty or whitespace only returns
    the snapshot it was given; with any other name it appends one category
    with the generated id, the name and a budget of zero, and leaves accounts
    and transactions alone. *)
Theorem addCategory_spec :
  forall (rnd36 name : jsstring) (d : snapshot),
    (forallb is_whitespace name = true -> addCategory rnd36 name d = d)
    /\ (forallb is_whitespace name = false ->
        categories (addCategory rnd36 name d) =
          categories d ++ [Category.mk (genId rnd36) name 0]
        /\ accounts (addCategory rnd36 name d) = accounts d
        /\ transactions (addCategory rnd36 name d) = transactions d).
Proof.
intros rnd36 name d. unfold addCategory. rewrite falsy_trim.
split; intros ->; simpl; auto.
Qed.

Lemma addCategory_spec_witness :
  addCategory (lit "0.c7r2m1") (lit " ") empty_snapshot = empty_snapshot
  /\ categories (addCategory (lit "0.c7r2m1") (lit "Groceries") empty_snapshot)
     = [Category.mk (lit "_c7r2m1") (lit "Groceries") 0].
Proof.
split.
- exact (proj1 (addCategory_spec (lit "0.c7r2m1") (lit " ") empty_snapshot)
           eq_refl).
- exact (proj1 (proj2 (addCategory_spec (lit "0.c7r2m1") (lit "Groceries")
                         empty_snapshot) eq_refl)).
Defined.

Section MoreStoreFacts.
Context {formvalue : Type}.
Variable parseFloat : formvalue -> float.

(** X2.  [budgetCategory] never touches accounts or transactions and keeps
    the number, the order, the ids and the names of the categories.  A
    category whose id is the given one has the parsed delta added to its
    budget, every other category is kept as it is; so with an id that no
    category has, the snapshot is returned unchanged. *)
Theorem budgetCategory_spec :
  forall (id : jsstring) (delta : formvalue) (d : snapshot),
    accounts (budgetCategory parseFloat id delta d) = accounts d
    /\ transactions (budgetCategory parseFloat id delta d) = transactions d
    /\ Forall2
         (fun c c' =>
            Category.id c' = Category.id c
            /\ Category.name c' = Category.name c
            /\ (Category.id c = id ->
                Category.budgeted c' =
                (Category.budgeted c + parseFloat delta)%float)
            /\ (Category.id c <> id -> c' = c))
         (categories d) (categories (budgetCategory parseFloat id delta d))
    /\ ((forall c, In c (categories d) -> Category.id c <> id) ->
        budgetCategory parseFloat id delta d = d).
Proof.
intros id delta d. split; [reflexivity|]. split; [reflexivity|]. split.
- simpl. induction (categories d) as [|c l IH]; simpl; constructor; auto.
  destruct (streq (Category.id c) id) eqn:E; simpl.
  + apply streq_eq in E. repeat split; auto. intros N. contradiction.
  + apply streq_neq in E. repeat split; auto. intros N. contradiction.
- intros H. destruct d as [a c t]. unfold budgetCategory. simpl in *.
  f_equal. apply map_unmatched. intros x Hx. apply streq_neq. now apply H.
Qed.

End MoreStoreFacts.

Lemma budgetCategory_spec_witness :
  let d := Snapshot [] [Category.mk (lit "_c1") (lit "Groceries") 10] [] in
  budgetCategory parseFloat_number (lit "_zz") 5%float d = d.
Proof.
intros d.
apply (budgetCategory_spec parseFloat_number (lit "_zz") 5%float d).
intros c [<-|[]]. discriminate.
Defined.

(** X3.  [addTransaction] keeps the number, the order, the ids and the
    names of the accounts; an account whose id is [tx.accountId] has the
    amount added to its balance, every other account is kept as it is.  The
    categories are never touched, and exactly one transaction is appended. *)
Theorem addTransaction_accounts :
  forall (rnd36 now : jsstring) (tx : TxForm.t) (d : snapshot),
    Forall2
      (fun a a' =>
         Account.id a' = Account.id a
         /\ Account.name a' = Account.name a
         /\ (Account.id a = TxForm.accountId tx ->
             Account.balance a' =
             (Account.balance a + TxForm.amount tx)%float)
         /\ (Account.id a <> TxForm.accountId tx -> a' = a))
      (accounts d) (accounts (addTransaction rnd36 now tx d))
    /\ categories (addTransaction rnd36 now tx d) = categories d
    /\ transactions (addTransaction rnd36 now tx d) =
       transactions d ++ [logged_transaction rnd36 now tx].
Proof.
intros rnd36 now tx d. split; [|split; reflexivity].
simpl. induction (accounts d) as [|a l IH]; simpl; constructor; auto.
destruct (streq (Account.id a) (TxForm.accountId tx)) eqn:E; simpl.
- apply streq_eq in E. repeat split; auto. intros N. contradiction.
- apply streq_neq in E. repeat split; auto. intros N. contradiction.
Qed.

(* ================================================================= *)
(** ** Identifiers *)

Lemma length_lit_underscore : List.length (lit "_") = 1.
Proof. reflexivity. Qed.

(** X4.  An id made by [genId] is an underscore followed by at most eight
    code units, the third to the tenth of the rendering of the random
    number; when the rendering has ten code units or more the id has exactly
    nine, and when it has at most two (as ["0"], the rendering of zero) the
    id is the bare underscore. *)
Theorem genId_shape :
  forall rnd36 : jsstring,
    (exists tail, genId rnd36 = lit "_" ++ tail
                  /\ List.length tail <= 8
                  /\ tail = firstn 8 (skipn 2 rnd36))
    /\ List.length (genId rnd36) <= 9
    /\ (10 <= List.length rnd36 -> List.length (genId rnd36) = 9)
    /\ (List.length rnd36 <= 2 -> genId rnd36 = lit "_").
Proof.
intros rnd36. unfold genId, slice. change (10 - 2) with 8.
pose proof (firstn_le_length 8 (skipn 2 rnd36)) as L.
repeat split.
- exists (firstn 8 (skipn 2 rnd36)). auto.
- rewrite length_app, length_lit_underscore. lia.
- intros H. rewrite length_app, length_lit_underscore, length_firstn,
    length_skipn. lia.
- intros H. rewrite skipn_all2 by exact H. reflexivity.
Qed.

Lemma genId_shape_witness :
  List.length (genId (lit "0.k3x9p2m5q7r")) = 9 /\ genId (lit "0") = lit "_".
Proof.
split.
- apply (genId_shape (lit "0.k3x9p2m5q7r")). simpl. lia.
- apply (genId_shape (lit "0")). simpl. lia.
Defined.

(* ================================================================= *)
(** ** Persistence: the other paths *)

(** X5.  When no file was chosen the upload handler changes nothing at all;
    when the file cannot be read it shows "Error loading file: Error reading
    file", leaves the application data as they were and ends loading. *)
Theorem handleFileUpload_no_data :
  forall st : app,
    handleFileUpload None st = st
    /\ data (handleFileUpload (Some FileError) st) = data st
    /\ alerts (handleFileUpload (Some FileError) st) =
       alerts st ++ [lit "Error loading file: Error reading file"]
    /\ isLoading (handleFileUpload (Some FileError) st) = false.
Proof. intros st. repeat split. Qed.

Lemma getItem_setItem_other (ls : storage) (key key' : jsstring)
  (value : text) :
  streq key key' = false ->
  getItem (setItem ls key value) key' = getItem ls key'.
Proof.
intros N. unfold setItem. simpl. rewrite N.
induction ls as [|[k v] ls IH]; simpl; [reflexivity|].
destruct (streq k key) eqn:E; simpl.
- apply streq_eq in E. subst k. now rewrite N.
- destruct (streq k key'); [reflexivity|exact IH].
Qed.

(** X6.  [loadData] returns the empty snapshot when nothing is stored under
    the key, when the stored text is empty and when the stored text does not
    parse; otherwise it returns what the text parses to, whatever that is. *)
Theorem loadData_fallback :
  forall ls : storage,
    (getItem ls LS_KEY = None -> loadData ls = js_of_snapshot empty_snapshot)
    /\ (getItem ls LS_KEY = Some [] ->
        loadData ls = js_of_snapshot empty_snapshot)
    /\ (forall raw, getItem ls LS_KEY = Some raw -> JSON_parse raw = None ->
        loadData ls = js_of_snapshot empty_snapshot)
    /\ (forall raw v, getItem ls LS_KEY = Some raw -> raw <> [] ->
        JSON_parse raw = Some v -> loadData ls = v).
Proof.
intros ls. unfold loadData. repeat split.
- now intros ->.
- now intros ->.
- intros raw -> P. destruct raw; [reflexivity|now rewrite P].
- intros raw v -> N P. destruct raw; [contradiction|now rewrite P].
Qed.

Lemma loadData_fallback_witness :
  loadData [] = js_of_snapshot empty_snapshot
  /\ loadData [(LS_KEY, [TLBrace; TString (lit "accounts")])] =
     js_of_snapshot empty_snapshot
  /\ loadData [(LS_KEY, [TNumber 42])] = JNum 42.
Proof.
split; [|split].
- exact (proj1 (loadData_fallback []) eq_refl).
- exact (proj1 (proj2 (proj2
                 (loadData_fallback
                    [(LS_KEY, [TLBrace; TString (lit "accounts")])])))
           _ eq_refl eq_refl).
- apply (proj2 (proj2 (proj2 (loadData_fallback [(LS_KEY, [TNumber 42])])))
           [TNumber 42] (JNum 42) eq_refl); [discriminate|reflexivity].
Defined.

(** X7.  [saveData] of a snapshot replaces what was stored under the key of
    the application and leaves every other item of the store alone: after
    two saves the second snapshot is loaded, if its numbers are finite and
    not negative zero. *)
Theorem saveData_store :
  forall (d1 d2 : snapshot) (ls : storage),
    getItem (saveData (js_of_snapshot d2) ls) LS_KEY =
      Some (JSON_stringify (js_of_snapshot d2))
    /\ (forall key, streq LS_KEY key = false ->
          getItem (saveData (js_of_snapshot d2) ls) key = getItem ls key)
    /\ (snapshot_exact d2 = true ->
        loadData (saveData (js_of_snapshot d2)
                    (saveData (js_of_snapshot d1) ls))
        = js_of_snapshot d2).
Proof.
intros d1 d2 ls. unfold saveData. split; [apply getItem_setItem|]. split.
- intros key N. now apply getItem_setItem_other.
- intros E. apply (loadData_saveData (js_of_snapshot d2)).
  now apply snapshot_json_exact.
Qed.

Lemma saveData_store_witness :
  let d1 := empty_snapshot in
  let d2 := Snapshot [Account.mk (lit "_k3x9p2") (lit "Checking") 80] [] [] in
  getItem (saveData (js_of_snapshot d2)
             [(lit "theme", [TString (lit "dark")])]) (lit "theme")
    = Some [TString (lit "dark")]
  /\ loadData (saveData (js_of_snapshot d2) (saveData (js_of_snapshot d1) []))
     = js_of_snapshot d2.
Proof.
intros d1 d2. split.
- exact (proj1 (proj2 (saveData_store d1 d2
                         [(lit "theme", [TString (lit "dark")])]))
           (lit "theme") eq_refl).
- exact (proj2 (proj2 (saveData_store d1 d2 [])) eq_refl).
Defined.

Lemma before_T_app (day rest : jsstring) :
  forallb (fun c => negb (N.eqb c 84)) day = true ->
  before_T (day ++ 84%N :: rest) = day.
Proof.
induction day as [|c day IH]; simpl; [reflexivity|].
intros H. apply andb_true_iff in H as [Hc Hd].
apply negb_true_iff in Hc. rewrite Hc. f_equal. now apply IH.
Qed.

(** X8.  The exported file is named [budget-data-], the date part of the
    time stamp, [.json]; and uploading an exported file puts back the
    exported snapshot, whatever the application held in between, provided the
    numbers of the snapshot are finite and not negative zero. *)
Theorem export_then_import :
  forall (day rest : jsstring) (d : snapshot) (st : app),
    forallb (fun c => negb (N.eqb c 84)) day = true ->
    snapshot_exact d = true ->
    filename (exportData (day ++ lit "T" ++ rest) (js_of_snapshot d)) =
      lit "budget-data-" ++ day ++ lit ".json"
    /\ data (handleFileUpload
               (Some (FileText
                        (content (exportData (day ++ lit "T" ++ rest)
                                    (js_of_snapshot d)))))
               st) = js_of_snapshot d
    /\ alerts (handleFileUpload
                 (Some (FileText
                          (content (exportData (day ++ lit "T" ++ rest)
                                      (js_of_snapshot d)))))
                 st) = alerts st.
Proof.
intros day rest d st Hday Hd.
unfold exportData. cbn [filename content].
change (lit "T" ++ rest) with (84%N :: rest).
rewrite (before_T_app day rest Hday). split; [reflexivity|].
pose proof (JSON_parse_stringify _ (snapshot_json_exact d Hd)) as P.
unfold handleFileUpload, loadDataFromFile. rewrite P. split; reflexivity.
Qed.

Lemma export_then_import_witness :
  let d := Snapshot [Account.mk (lit "_k3x9p2") (lit "Checking") 80] [] [] in
  let st := App (js_of_snapshot empty_snapshot) false [] in
  filename (exportData (lit "2024-05-01" ++ lit "T" ++ lit "10:00:00.000Z")
              (js_of_snapshot d)) = lit "budget-data-2024-05-01.json"
  /\ data (handleFileUpload
             (Some (FileText
                      (content
                         (exportData
                            (lit "2024-05-01" ++ lit "T" ++ lit "10:00:00.000Z")
                            (js_of_snapshot d)))))
             st) = js_of_snapshot d.
Proof.
intros d st.
destruct (export_then_import (lit "2024-05-01") (lit "10:00:00.000Z") d st
            eq_refl eq_refl) as (Hn & Hd & _).
split; [exact Hn|exact Hd].
Defined.

(* ================================================================= *)
(** ** The transaction forms *)

Lemma falsy_nil (s : jsstring) : falsy s = true <-> s = [].
Proof. destruct s; simpl; split; congruence. Qed.

Section FormFacts.
Variable parseFloat : jsstring -> float.

(** X9.  [handleSubmit] of the transactions form does nothing, to the data
    and to the form, while the account, the category or the amount field is
    empty.  Otherwise it hands [addTransaction] the two ids, the parsed
    amount and the memo, so exactly one transaction with them is appended,
    and it clears the amount and the memo but keeps the chosen account and
    category.  A form set up for a snapshot without accounts is refused
    whatever is typed into it. *)
Theorem handleSubmit_spec :
  forall (rnd36 now : jsstring) (form : TransactionForm.t) (data : snapshot),
    (TransactionForm.accountId form = []
     \/ TransactionForm.categoryId form = []
     \/ TransactionForm.amount form = [] ->
     handleSubmit parseFloat rnd36 now form data = (form, data))
    /\ (TransactionForm.accountId form <> [] ->
        TransactionForm.categoryId form <> [] ->
        TransactionForm.amount form <> [] ->
        transactions (snd (handleSubmit parseFloat rnd36 now form data)) =
          transactions data ++
          [Transaction.mk (TransactionForm.accountId form)
             (TransactionForm.categoryId form)
             (parseFloat (TransactionForm.amount form))
             (TransactionForm.memo form) (genId rnd36) now]
        /\ fst (handleSubmit parseFloat rnd36 now form data) =
           TransactionForm.mk (TransactionForm.accountId form)
             (TransactionForm.categoryId form) [] [])
    /\ (accounts data = [] ->
        forall amount memo,
          handleSubmit parseFloat rnd36 now
            (TransactionForm.mk (TransactionForm.accountId (initialForm data))
               (TransactionForm.categoryId (initialForm data)) amount memo)
            data
          = (TransactionForm.mk (TransactionForm.accountId (initialForm data))
               (TransactionForm.categoryId (initialForm data)) amount memo,
             data)).
Proof.
intros rnd36 now form data. unfold handleSubmit. repeat split.
- intros H.
  assert (E : falsy (TransactionForm.accountId form)
              || falsy (TransactionForm.categoryId form)
              || falsy (TransactionForm.amount form) = true).
  { rewrite !orb_true_iff, !falsy_nil. tauto. }
  now rewrite E.
- destruct (TransactionForm.accountId form); [contradiction|].
  destruct (TransactionForm.categoryId form); [contradiction|].
  destruct (TransactionForm.amount form); [contradiction|]. reflexivity.
- destruct (TransactionForm.accountId form); [contradiction|].
  destruct (TransactionForm.categoryId form); [contradiction|].
  destruct (TransactionForm.amount form); [contradiction|]. reflexivity.
- intros E amount memo. unfold initialForm, firstAccountId. rewrite E.
  reflexivity.
Qed.

(** X10.  The quick-add modal changes the application data exactly as the
    transactions form does.  When it adds the transaction it closes and its
    form goes back to the first account and category; when a field is
    missing it stays open with the form as it is. *)
Theorem quickAddSubmit_spec :
  forall (rnd36 now : jsstring) (form : TransactionForm.t) (data : snapshot),
    snd (fst (quickAddSubmit parseFloat rnd36 now form data)) =
      snd (handleSubmit parseFloat rnd36 now form data)
    /\ (TransactionForm.accountId form = []
        \/ TransactionForm.categoryId form = []
        \/ TransactionForm.amount form = [] ->
        quickAddSubmit parseFloat rnd36 now form data = (form, data, true))
    /\ (TransactionForm.accountId form <> [] ->
        TransactionForm.categoryId form <> [] ->
        TransactionForm.amount form <> [] ->
        snd (quickAddSubmit parseFloat rnd36 now form data) = false
        /\ fst (fst (quickAddSubmit parseFloat rnd36 now form data)) =
           initialForm data).
Proof.
intros rnd36 now form data. unfold quickAddSubmit, handleSubmit.
repeat split.
- now destruct (falsy _ || falsy _ || falsy _).
- intros H.
  assert (E : falsy (TransactionForm.accountId form)
              || falsy (TransactionForm.categoryId form)
              || falsy (TransactionForm.amount form) = true).
  { rewrite !orb_true_iff, !falsy_nil. tauto. }
  now rewrite E.
- destruct (TransactionForm.accountId form); [contradiction|].
  destruct (TransactionForm.categoryId form); [contradiction|].
  destruct (TransactionForm.amount form); [contradiction|]. reflexivity.
- destruct (TransactionForm.accountId form); [contradiction|].
  destruct (TransactionForm.categoryId form); [contradiction|].
  destruct (TransactionForm.amount form); [contradiction|]. reflexivity.
Qed.

End FormFacts.

Lemma handleSubmit_spec_witness :
  let form := TransactionForm.mk (lit "_k3x9p2") (lit "_c7r2m1") [] (lit "milk") in
  let data := Snapshot [Account.mk (lit "_k3x9p2") (lit "Checking") 100] [] [] in
  handleSubmit (fun _ => 0%float) (lit "0.t5w8q4") (lit "2024-05-01") form data
  = (form, data).
Proof.
intros form data.
apply (handleSubmit_spec (fun _ => 0%float) (lit "0.t5w8q4")
         (lit "2024-05-01") form data).
right. right. reflexivity.
Defined.

Lemma quickAddSubmit_spec_witness :
  let form := TransactionForm.mk [] (lit "_c7r2m1") (lit "5") (lit "milk") in
  quickAddSubmit (fun _ => 5%float) (lit "0.t5w8q4") (lit "2024-05-01") form
    empty_snapshot
  = (form, empty_snapshot, true).
Proof.
intros form.
apply (quickAddSubmit_spec (fun _ => 5%float) (lit "0.t5w8q4")
         (lit "2024-05-01") form empty_snapshot).
left. reflexivity.
Defined.

(* ================================================================= *)
(** ** What the dashboard lists *)

(** X11.  "Recent Activity" lists the five newest transactions, or all of
    them when there are fewer, newest first; a transaction that is added goes
    to the top and the four that were newest follow it. *)
Theorem recentActivity_spec :
  forall data : snapshot,
    recentActivity data = firstn 5 (rev (transactions data))
    /\ List.length (recentActivity data) =
       Nat.min 5 (List.length (transactions data))
    /\ (forall rnd36 now tx,
          recentActivity (addTransaction rnd36 now tx data) =
          logged_transaction rnd36 now tx :: firstn 4 (recentActivity data)).
Proof.
intros data.
assert (E : forall d, recentActivity d = firstn 5 (rev (transactions d))).
{ intros d. unfold recentActivity, slice_last. symmetry. apply firstn_rev. }
split; [apply E|]. split.
- rewrite E, length_firstn, length_rev. reflexivity.
- intros rnd36 now tx. rewrite !E. cbn [transactions addTransaction].
  fold (logged_transaction rnd36 now tx).
  rewrite rev_app_distr.
  change (rev [logged_transaction rnd36 now tx] ++ rev (transactions data))
    with (logged_transaction rnd36 now tx :: rev (transactions data)).
  rewrite firstn_cons, firstn_firstn. reflexivity.
Qed.

Lemma StronglySorted_app_cross {A} (R : A -> A -> Prop) (l1 l2 : list A) :
  StronglySorted R (l1 ++ l2) ->
  forall a b, In a l1 -> In b l2 -> R a b.
Proof.
induction l1 as [|x l1 IH]; simpl; intros S a b Ha Hb; [contradiction|].
inversion S as [|? ? S' F]; subst. destruct Ha as [<-|Ha].
- rewrite Forall_forall in F. apply F. apply in_or_app. now right.
- now apply (IH S').
Qed.

Lemma spendingByCategory_sorted (data : snapshot) :
  StronglySorted by_value_desc (spendingByCategory data).
Proof.
unfold spendingByCategory. apply sort_desc. apply Forall_forall.
intros item Hi. now apply filter_In in Hi as [_ Hi].
Qed.

(** X12.  The pie chart gets at most six of the ranked items and the bar
    chart the first five of those; they are the largest spenders: no item
    that is left out has a larger value than an item that is shown. *)
Theorem pieChartData_top :
  forall data : snapshot,
    List.length (pieChartData data) <= 6
    /\ barChartData data = firstn 5 (pieChartData data)
    /\ spendingByCategory data =
       pieChartData data ++ skipn 6 (spendingByCategory data)
    /\ (forall shown hidden,
          In shown (pieChartData data) ->
          In hidden (skipn 6 (spendingByCategory data)) ->
          (ChartItem.value hidden <=? ChartItem.value shown)%float = true).
Proof.
intros data. unfold pieChartData, barChartData. repeat split.
- apply firstn_le_length.
- now rewrite firstn_firstn.
- symmetry. apply firstn_skipn.
- intros shown hidden Hs Hh.
  pose proof (spendingByCategory_sorted data) as S.
  rewrite <- (firstn_skipn 6 (spendingByCategory data)) in S.
  exact (StronglySorted_app_cross _ _ _ S shown hidden Hs Hh).
Qed.

(* ================================================================= *)
(** ** Chart colours *)

(** X13.  With a palette that is not empty every slice gets a colour of the
    palette, and the colours repeat with the length of the palette; with an
    empty palette no slice gets one.  The default palette of the pie chart
    has eight different colours, so the slices of a chart of up to eight
    items are all coloured differently. *)
Theorem sliceColor_spec :
  (forall colors index,
     colors <> [] ->
     (exists c, sliceColor colors index = Some c /\ In c colors)
     /\ sliceColor colors (index + List.length colors) =
        sliceColor colors index)
  /\ (forall index, sliceColor [] index = None)
  /\ (forall i j, i < 8 -> j < 8 ->
        sliceColor pieColors i = sliceColor pieColors j -> i = j).
Proof.
split; [|split].
- intros colors index Hne.
  assert (L : List.length colors <> 0) by (destruct colors; simpl; congruence).
  unfold sliceColor. split.
  + destruct (nth_error colors (index mod List.length colors)) as [c|] eqn:E.
    * exists c. split; [reflexivity|]. eapply nth_error_In; eauto.
    * apply nth_error_None in E.
      pose proof (Nat.mod_upper_bound index _ L). lia.
  + f_equal. rewrite <- (Nat.mul_1_l (List.length colors)) at 1.
    now rewrite Nat.Div0.mod_add.
- intros index. unfold sliceColor. simpl. now destruct index.
- intros i j Hi Hj. unfold sliceColor.
  change (List.length pieColors) with 8.
  rewrite !Nat.mod_small by assumption.
  assert (N : NoDup pieColors).
  { unfold pieColors. repeat constructor; simpl; intuition discriminate. }
  apply (proj1 (NoDup_nth_error pieColors) N). exact Hi.
Qed.

Lemma sliceColor_spec_witness :
  sliceColor pieColors 9 = sliceColor pieColors 1
  /\ sliceColor pieColors 1 = Some (lit "#10b981").
Proof.
split.
- exact (proj2 (proj1 sliceColor_spec pieColors 1 ltac:(discriminate))).
- reflexivity.
Defined.

(* ================================================================= *)
(** ** Totals *)

Section TotalFacts.
Context {formvalue : Type}.
Variable parseFloat : formvalue -> float.

(** X14.  Adding a transaction raises the total activity of the dashboard
    by exactly its amount, and adding an account raises the total balance by
    exactly its parsed opening balance: the new entry is the last one added
    to the running sum. *)
Theorem totals_after_adding :
  (forall rnd36 now tx d,
     totalActivity (addTransaction rnd36 now tx d) =
     (totalActivity d + TxForm.amount tx)%float)
  /\ (forall rnd36 name balance d,
        forallb is_whitespace name = false ->
        totalBalance (addAccount parseFloat rnd36 name balance d) =
        (totalBalance d + parseFloat balance)%float).
Proof.
split.
- intros rnd36 now tx d. unfold totalActivity.
  cbn [transactions addTransaction]. now rewrite fold_left_app.
- intros rnd36 name balance d B. unfold totalBalance, addAccount.
  rewrite falsy_trim, B. cbn [accounts]. now rewrite fold_left_app.
Qed.

End TotalFacts.

Lemma totals_after_adding_witness :
  totalBalance
    (addAccount parseFloat_number (lit "0.k3x9p2") (lit "Checking") 100%float
       (Snapshot [Account.mk (lit "_a1") (lit "Cash") 0.1] [] []))
  = (0 + 0.1 + 100)%float.
Proof.
exact (proj2 (totals_after_adding parseFloat_number) (lit "0.k3x9p2")
         (lit "Checking") 100%float
         (Snapshot [Account.mk (lit "_a1") (lit "Cash") 0.1] [] []) eq_refl).
Defined.

(* ================================================================= *)
(** ** When a spend is positive *)

Lemma SFadd_nonneg_positive (x y : spec_float) :
  SpecFloat.valid_binary prec emax x = true ->
  SpecFloat.valid_binary prec emax y = true ->
  sf_nonneg x = true -> sf_positive y = true ->
  sf_positive (SFadd prec emax x y) = true.
Proof.
intros Vx Vy Px Py.
destruct x as [sx|sx| |sx mx ex]; try discriminate;
  destruct y as [sy|sy| |sy my ey]; try discriminate;
  try (destruct sx; try discriminate); try (destruct sy; try discriminate);
  try reflexivity.
simpl in Vx, Vy.
pose proof (bounded_emin prec emax _ _ Vx) as Ex.
pose proof (bounded_emin prec emax _ _ Vy) as Ey.
unfold SFadd, cond_Zopp.
set (a := fst (shl_align mx ex (Z.min ex ey))).
set (b := fst (shl_align my ey (Z.min ex ey))).
cbn [Z.add binary_normalize].
apply sf_nonzero_positive, (binary_round_nonzero prec emax prec_positive).
lia.
Qed.

Lemma add_nonneg_positive (x y : float) :
  (0 <=? x)%float = true -> (0 <? y)%float = true ->
  (0 <? x + y)%float = true.
Proof.
rewrite leb_zero, !ltb_zero, add_spec.
apply SFadd_nonneg_positive; apply Prim2SF_valid.
Qed.

(** The sum of the absolute values of the negative amounts among the
    transactions that [p] selects, started at [acc], is positive exactly when
    [acc] is or when there is such a transaction. *)
Lemma abs_total_positive (p : Transaction.t -> bool)
  (txs : list Transaction.t) :
  forall acc,
    (0 <=? acc)%float = true ->
    (0 <? fold_left (fun sum tx => sum + abs (Transaction.amount tx))
            (filter (fun tx => p tx && (Transaction.amount tx <? 0)) txs)
            acc)%float
    = (0 <? acc)%float
      || existsb (fun tx => p tx && (Transaction.amount tx <? 0)%float) txs.
Proof.
induction txs as [|t txs IH]; intros acc Hacc; simpl.
- now rewrite orb_false_r.
- destruct (p t && (Transaction.amount t <? 0)%float) eqn:E; simpl.
  + apply andb_true_iff in E as [_ N]. apply abs_negative in N.
    pose proof (add_nonneg_positive _ _ Hacc N) as P.
    rewrite (IH _ (positive_nonneg _ P)), P. simpl. now rewrite orb_true_r.
  + now apply IH.
Qed.

(** X15.  The spend of a category is positive exactly when the category has
    a transaction with a negative amount; so a category of the snapshot has
    its item in the ranking exactly when it has such a transaction, however
    much income was recorded against it. *)
Theorem spending_positive_iff_expense :
  forall (data : snapshot) (cat : Category.t),
    (0 <? spending data (Category.id cat))%float =
      existsb (fun tx => streq (Transaction.categoryId tx) (Category.id cat)
                         && (Transaction.amount tx <? 0)%float)
        (transactions data)
    /\ (In cat (categories data) ->
        (In (ChartItem.mk (Category.name cat)
               (spending data (Category.id cat)))
            (spendingByCategory data)
         <-> exists tx, In tx (transactions data)
                        /\ Transaction.categoryId tx = Category.id cat
                        /\ (Transaction.amount tx <? 0)%float = true)).
Proof.
intros data cat.
assert (P : (0 <? spending data (Category.id cat))%float =
            existsb (fun tx => streq (Transaction.categoryId tx)
                                 (Category.id cat)
                               && (Transaction.amount tx <? 0)%float)
              (transactions data)).
{ unfold spending.
  rewrite (abs_total_positive
             (fun tx => streq (Transaction.categoryId tx) (Category.id cat))
             (transactions data) 0%float eq_refl).
  reflexivity. }
split; [exact P|]. intros Hc.
assert (Q : In (ChartItem.mk (Category.name cat)
                  (spending data (Category.id cat)))
               (spendingByCategory data)
            <-> (0 <? spending data (Category.id cat))%float = true).
{ unfold spendingByCategory. split.
  - intros H. apply (Permutation_in _ (sort_perm _ _)) in H.
    now apply filter_In in H as [_ H].
  - intros H. apply (Permutation_in _ (Permutation_sym (sort_perm _ _))).
    apply filter_In. split; [|exact H].
    apply in_map_iff. exists cat. auto. }
rewrite Q, P, existsb_exists. split.
- intros (tx & Ht & E). apply andb_true_iff in E as [E N].
  apply streq_eq in E. eauto.
- intros (tx & Ht & E & N). exists tx. split; [exact Ht|].
  rewrite E, streq_refl. exact N.
Qed.

Lemma spending_positive_iff_expense_witness :
  let groceries := Category.mk (lit "_c1") (lit "Groceries") 0 in
  let tx amount :=
    Transaction.mk (lit "_a1") (lit "_c1") amount (lit "") (lit "_t")
      (lit "2024-05-01T10:00:00.000Z") in
  let data := Snapshot [] [groceries] [tx 500%float; tx (-20)%float] in
  In (ChartItem.mk (lit "Groceries") (spending data (lit "_c1")))
     (spendingByCategory data).
Proof.
intros groceries tx data.
apply (proj2 (spending_positive_iff_expense data groceries)
         (or_introl eq_refl)).
exists (tx (-20)%float). split; [right; left; reflexivity|].
split; reflexivity.
Defined.

(** X16.  Whatever the two month prefixes are that the dashboard takes from
    the clock, the spend of the month it compares with is never negative and
    never [NaN]; the change it shows is [0] when no transaction whose date
    starts with that prefix has a negative amount, and as soon as there is
    one the change is [(this - last) / last * 100] with a [last] that is
    positive. *)
Theorem dashboardSpendingChange_spec :
  forall (data : snapshot) (thisMonth lastMonth : jsstring),
    (0 <=? monthSpending data lastMonth)%float = true
    /\ (existsb (fun tx => startsWith (Transaction.date tx) lastMonth
                           && (Transaction.amount tx <? 0)%float)
          (transactions data) = false ->
        dashboardSpendingChange data thisMonth lastMonth = 0%float)
    /\ (existsb (fun tx => startsWith (Transaction.date tx) lastMonth
                           && (Transaction.amount tx <? 0)%float)
          (transactions data) = true ->
        (0 <? monthSpending data lastMonth)%float = true
        /\ dashboardSpendingChange data thisMonth lastMonth =
           ((monthSpending data thisMonth - monthSpending data lastMonth)
            / monthSpending data lastMonth * 100)%float).
Proof.
intros data thisMonth lastMonth.
assert (P : (0 <? monthSpending data lastMonth)%float =
            existsb (fun tx => startsWith (Transaction.date tx) lastMonth
                               && (Transaction.amount tx <? 0)%float)
              (transactions data)).
{ unfold monthSpending.
  rewrite (abs_total_positive
             (fun tx => startsWith (Transaction.date tx) lastMonth)
             (transactions data) 0%float eq_refl).
  reflexivity. }
unfold dashboardSpendingChange, spendingChange. rewrite P. split; [|split].
- destruct (existsb _ (transactions data)) eqn:E.
  + apply positive_nonneg. now rewrite P.
  + unfold monthSpending.
    assert (G : forall txs acc,
              (0 <=? acc)%float = true ->
              (0 <=? fold_left
                       (fun sum tx => sum + abs (Transaction.amount tx))
                       (filter (fun tx => startsWith (Transaction.date tx)
                                            lastMonth
                                          && (Transaction.amount tx <? 0))
                          txs) acc)%float = true).
    { induction txs as [|t txs IH]; intros acc Hacc; simpl; [exact Hacc|].
      destruct (startsWith (Transaction.date t) lastMonth
                && (Transaction.amount t <? 0)%float) eqn:F; simpl;
        [|now apply IH].
      apply andb_true_iff in F as [_ N].
      apply IH, add_nonneg; [exact Hacc|].
      now apply positive_nonneg, abs_negative. }
    now apply G.
- now intros ->.
- intros ->. auto.
Qed.

Lemma dashboardSpendingChange_spec_witness :
  let tx date amount :=
    Transaction.mk (lit "_a1") (lit "_c1") amount (lit "") (lit "_t") date in
  let may_only := Snapshot [] [] [tx (lit "2024-05-01T10:00:00.000Z") (-50)%float] in
  let both :=
    Snapshot [] []
      [tx (lit "2024-04-11T10:00:00.000Z") (-40)%float;
       tx (lit "2024-05-01T10:00:00.000Z") (-50)%float] in
  dashboardSpendingChange may_only (lit "2024-05") (lit "2024-04") = 0%float
  /\ dashboardSpendingChange both (lit "2024-05") (lit "2024-04") = 25%float.
Proof.
intros tx may_only both. split.
- exact (proj1 (proj2 (dashboardSpendingChange_spec may_only (lit "2024-05")
                         (lit "2024-04"))) eq_refl).
- destruct (proj2 (proj2 (dashboardSpendingChange_spec both (lit "2024-05")
                            (lit "2024-04"))) eq_refl) as [_ H].
  exact H.
Defined.
